(** * signalstory: the store (packages/signalstory/src/lib/store.ts)

    A shallow embedding of the [Store] class and of the collaborators it
    drives, followed by the properties of the store's public contract.

    The store is a JavaScript object that lives next to process-wide
    state (the console, the local storage, the static mediator, the effects
    the host framework has queued).  Every
    method is embedded as a total function that takes the receiver and the
    process-wide environment and returns both, updated. *)

From Stdlib Require Import ZArith Bool List Ascii String DecimalString.
From stdpp Require Import base option list strings gmap.

Local Open Scope string_scope.
Local Open Scope Z_scope.
Local Open Scope list_scope.

(** ** JavaScript values

    [TState] is a type parameter of the class, erased at run time: what
    the store holds is a JavaScript value.  Numbers are the integral ones
    plus NaN; an object carries the identity of its reference, since the
    history keeps snapshots by reference. *)

#[warnings="-register-all"]
Inductive JsValue : Type :=
| JsUndefined
| JsNull
| JsBool (b : bool)
| JsNumber (n : Z)
| JsNaN
| JsString (s : string)
| JsObject (ref : nat) (fields : list (string * JsValue)).

(** [if (v)], [v ? a : b]: ToBoolean. *)
Definition truthy (v : JsValue) : bool :=
  match v with
  | JsUndefined | JsNull | JsNaN => false
  | JsBool b => b
  | JsNumber n => negb (n =? 0)
  | JsString s => negb (String.eqb s "")
  | JsObject _ _ => true
  end.

Definition nullish (v : JsValue) : bool :=
  match v with
  | JsUndefined | JsNull => true
  | _ => false
  end.

(** [a ?? b] on values. *)
Definition coalesce (a b : JsValue) : JsValue :=
  if nullish a then b else a.

(** [a ?? b] on an optional property of a configuration object. *)
Definition orElse {A} (a : option A) (b : A) : A :=
  match a with Some x => x | None => b end.

(** [if (flag)] on an optional boolean property. *)
Definition enabled (flag : option bool) : bool :=
  match flag with Some true => true | _ => false end.

Definition same_object (a b : JsValue) : bool :=
  match a, b with
  | JsObject r _, JsObject r' _ => Nat.eqb r r'
  | _, _ => false
  end.

(** ** Thrown errors *)

Inductive JsError : Type :=
| ConfigurationError (message : string)
| RuntimeError (code : Z)
| OtherError (thrown : JsValue).

Inductive Outcome (A : Type) : Type :=
| Returned (a : A)
| Threw (e : JsError).
Arguments Returned {A} a.
Arguments Threw {A} e.

Definition bindO {A B} (m : Outcome A) (k : A -> Outcome B) : Outcome B :=
  match m with
  | Returned a => k a
  | Threw e => Threw e
  end.

Fixpoint mapO {A B} (f : A -> Outcome B) (l : list A) : Outcome (list B) :=
  match l with
  | [] => Returned []
  | x :: l' => bindO (f x) (fun y => bindO (mapO f l') (fun ys => Returned (y :: ys)))
  end.

(** ** Configuration (store-config, as the constructor reads it) *)

Module StoreConfig.
(** Modelled from the spec: store-config.ts is not among the sources.
    Section 6, the configuration record handed to the constructor: every
    property but [initialState] is optional. *)
Record t : Type := mk {
  name : option string;
  initialState : JsValue;
  enableEvents : option bool;
  enableEffectsAndQueries : option bool;
  enableLogging : option bool;
  enableStateHistory : option bool;
  enableLocalStorageSync : option bool
}.
End StoreConfig.

Module Config.
(** [Required<StoreConfig<TState>>], the resolved [this.config]. *)
Record t : Type := mk {
  name : string;
  initialState : JsValue;
  enableEvents : bool;
  enableEffectsAndQueries : bool;
  enableLogging : bool;
  enableStateHistory : bool;
  enableLocalStorageSync : bool
}.
End Config.

(** ** Command history (store-history) *)

Module StoreHistory.

(** Modelled from the spec: store-history.ts is not among the sources.
    Section 3, History Entry: a state and the label of the command that
    replaced it. *)
Record HistoryItem : Type := mkItem {
  state : JsValue;
  commandLabel : string
}.

(** Modelled from the spec: the class StoreHistory of store-history.ts.
    Section 4.2: two stacks of entries.  The head of each list is the top
    of the stack. *)
Record t : Type := mk {
  undoStack : list HistoryItem;
  redoStack : list HistoryItem
}.

(** Modelled from the spec: [new StoreHistory()]; both stacks are empty at
    creation. *)
Definition empty : t := mk [] [].

(** Modelled from the spec: `add(stateBeforeChange, commandLabel)`: push
    the entry onto the undo-stack; clear the redo-stack. *)
Definition add (h : t) (stateBeforeChange : JsValue) (label : string) : t :=
  mk (mkItem stateBeforeChange label :: undoStack h) [].

(** Modelled from the spec: `undo(currentState)`: absent on an empty
    undo-stack; else pop the top entry [e], push the current state under
    [e]'s label onto the redo-stack, return [e]'s state.  Absent is
    JavaScript's [undefined]. *)
Definition undo (h : t) (currentState : JsValue) : JsValue * t :=
  match undoStack h with
  | [] => (JsUndefined, h)
  | e :: rest =>
      (state e, mk rest (mkItem currentState (commandLabel e) :: redoStack h))
  end.

(** Modelled from the spec: `redo(currentState)`, the mirror image. *)
Definition redo (h : t) (currentState : JsValue) : JsValue * t :=
  match redoStack h with
  | [] => (JsUndefined, h)
  | e :: rest =>
      (state e, mk (mkItem currentState (commandLabel e) :: undoStack h) rest)
  end.

(** Modelled from the spec: the entries on the undo-stack, oldest first. *)
Definition entries (h : t) : list HistoryItem := rev (undoStack h).

(** Modelled from the spec: the history stores its snapshots by reference
    (design notes).  Once the state object [old] has been changed in place
    into [new], every entry that holds the same object shows the new
    content. *)
Definition alias (old new : JsValue) (e : HistoryItem) : HistoryItem :=
  if same_object (state e) old then mkItem new (commandLabel e) else e.

(** Modelled from the spec: the same, for both stacks. *)
Definition aliased (old new : JsValue) (h : t) : t :=
  mk (map (alias old new) (undoStack h)) (map (alias old new) (redoStack h)).

End StoreHistory.

(** ** Event mediator (mediator, store-event) *)

(** A handler is a closure supplied by the application: it is named, and
    running it is recorded in the environment. *)
Definition HandlerId : Type := string.

(** Modelled from the spec: store-event.ts is not among the sources.  The
    store reads [event.name]; the mediator keys on the identity of the
    event object. *)
Record StoreEvent : Type := mkEvent {
  identity : nat;
  eventName : string
}.

Module Mediator.

(** Modelled from the spec: mediator.ts is not among the sources.
    Section 3, Mediator Registration: the name of the registering store and
    its handler, filed under the event. *)
Record Registration : Type := mkReg {
  source : string;
  handler : HandlerId
}.

(** One synchronous run of a handler. *)
Record Invocation : Type := mkInv {
  by_source : string;
  by_handler : HandlerId;
  of_event : StoreEvent;
  with_payload : JsValue
}.

(** Modelled from the spec: the class Mediator of mediator.ts.
    Section 3: a mapping from event identity to the sequence of its
    registrations, in insertion order, and a side ledger of the payloads
    published so far for each event. *)
Record t : Type := mk {
  registry : list (StoreEvent * list Registration);
  ledger : list (nat * list JsValue)
}.

(** Modelled from the spec: [new Mediator()], without registrations or
    publications. *)
Definition empty : t := mk [] [].

(** Modelled from the spec: reading and extending the two mappings of the
    mediator, which keep the order in which their keys were first used. *)
Fixpoint lookupRegs (id : nat) (r : list (StoreEvent * list Registration))
  : list Registration :=
  match r with
  | [] => []
  | (e, regs) :: r' => if Nat.eqb (identity e) id then regs else lookupRegs id r'
  end.

Fixpoint appendReg (ev : StoreEvent) (x : Registration)
    (r : list (StoreEvent * list Registration))
  : list (StoreEvent * list Registration) :=
  match r with
  | [] => [(ev, [x])]
  | (e, regs) :: r' =>
      if Nat.eqb (identity e) (identity ev) then (e, regs ++ [x]) :: r'
      else (e, regs) :: appendReg ev x r'
  end.

Fixpoint lookupLedger (id : nat) (l : list (nat * list JsValue)) : list JsValue :=
  match l with
  | [] => []
  | (i, ps) :: l' => if Nat.eqb i id then ps else lookupLedger id l'
  end.

Fixpoint appendLedger (id : nat) (p : JsValue) (l : list (nat * list JsValue))
  : list (nat * list JsValue) :=
  match l with
  | [] => [(id, [p])]
  | (i, ps) :: l' =>
      if Nat.eqb i id then (i, ps ++ [p]) :: l' else (i, ps) :: appendLedger id p l'
  end.

Definition registrationsOf (m : t) (ev : StoreEvent) : list Registration :=
  lookupRegs (identity ev) (registry m).

(** Modelled from the spec: `register(event, source, handler)` appends
    the registration to the list kept for the event's identity. *)
Definition register (m : t) (ev : StoreEvent) (src : string) (h : HandlerId) : t :=
  mk (appendReg ev (mkReg src h) (registry m)) (ledger m).

(** Modelled from the spec: `handler(event, payload)`, run synchronously.
    The run is recorded; what the body of the handler then does to the
    application, such as calling [set] on a store, is the application's and
    is not followed here. *)
Definition invoke (ev : StoreEvent) (payload : JsValue) (r : Registration)
  : Invocation :=
  mkInv (source r) (handler r) ev payload.

(** Modelled from the spec: `publish(event, payload)` runs every handler
    registered for the event, in registration order, appends the payload
    to the event's ledger, and returns the source names whose handlers
    ran. *)
Definition publish (m : t) (ev : StoreEvent) (payload : JsValue)
  : t * list Invocation * list string :=
  let regs := registrationsOf m ev in
  (mk (registry m) (appendLedger (identity ev) payload (ledger m)),
   map (invoke ev payload) regs,
   map source regs).

(** Modelled from the spec: `replay(source)`: for every registration
    that belongs to [source], its handler runs once per payload in the
    ledger of the registration's event, in publish order. *)
Definition replay (m : t) (src : string) : list Invocation :=
  flat_map
    (fun '(ev, regs) =>
       flat_map
         (fun r =>
            if String.eqb (source r) src
            then map (fun p => invoke ev p r) (lookupLedger (identity ev) (ledger m))
            else [])
         regs)
    (registry m).

End Mediator.

(** ** Plugins (store-plugin.ts) *)

(** A hook is a closure supplied by the plugin's author; like a handler it
    is named, and a call to it is recorded in the environment. *)
Definition HookId : Type := string.

Record StorePlugin : Type := mkPlugin {
  precedence : option Z;
  init : option HookId;
  preprocessCommand : option HookId;
  postprocessCommand : option HookId;
  preprocessEffect : option HookId;
  postprocessEffect : option HookId;
  others : list (string * JsValue)
}.

Inductive HookKind : Type :=
| InitHook | PreCommand | PostCommand | PreEffect | PostEffect.

Record HookCall : Type := mkHookCall {
  hookKind : HookKind;
  hookFn : HookId;
  hookStore : string
}.

(** ** The process-wide environment *)

Inductive LogArg : Type :=
| ArgRawConfig (c : StoreConfig.t)
| ArgConfig (c : Config.t)
| ArgState (v : JsValue)
| ArgNewState (v : JsValue)
| ArgEvent (name : string) (payload : JsValue).

(** One call of [console.log]. *)
Record LogEntry : Type := mkLog {
  message : string;
  optionalParams : list LogArg
}.

Record Env : Type := mkEnv {
  console : list LogEntry;
  localStorage : gmap string string;
  _mediator : option Mediator.t;
  handled : list Mediator.Invocation;
  plugins : list StorePlugin;
  hookCalls : list HookCall;
  (* the effects the host framework has queued for its next change
     detection, each under the name of the store that registered it *)
  scheduled : gset string
}.

Definition withConsole (env : Env) (c : list LogEntry) : Env :=
  mkEnv c (localStorage env) (_mediator env) (handled env) (plugins env) (hookCalls env)
    (scheduled env).

Definition withLocalStorage (env : Env) (ls : gmap string string) : Env :=
  mkEnv (console env) ls (_mediator env) (handled env) (plugins env) (hookCalls env)
    (scheduled env).

Definition withMediator (env : Env) (m : option Mediator.t) : Env :=
  mkEnv (console env) (localStorage env) m (handled env) (plugins env) (hookCalls env)
    (scheduled env).

Definition withHandled (env : Env) (l : list Mediator.Invocation) : Env :=
  mkEnv (console env) (localStorage env) (_mediator env) l (plugins env) (hookCalls env)
    (scheduled env).

Definition withScheduled (env : Env) (q : gset string) : Env :=
  mkEnv (console env) (localStorage env) (_mediator env) (handled env) (plugins env)
    (hookCalls env) q.

(** ** Persistence (store-persistence) *)

(** The encoding of a state for the string-valued backend; its format is
    left to the persistence module. *)
Class Codec : Type := {
  encode : JsValue -> string;
  decode : string -> option JsValue
}.

Section Persistence.
Context `{Codec}.

(** Modelled from the spec: store-persistence.ts is not among the
    sources.  Section 4.5, `load(name)`: absent ([undefined]) if no entry
    exists or it cannot be decoded. *)
Definition loadFromStorage (key : string) (env : Env) : JsValue :=
  match localStorage env !! key with
  | Some text => match decode text with Some v => v | None => JsUndefined end
  | None => JsUndefined
  end.

(** Modelled from the spec: `save(name, state)` encodes and writes the
    state under the name, overwriting any prior entry. *)
Definition saveToStorage (key : string) (v : JsValue) (env : Env) : Env :=
  withLocalStorage env (<[key := encode v]> (localStorage env)).

(** Modelled from the spec: `clear(name)` removes the entry under the
    name. *)
Definition clearLocalStorage (key : string) (env : Env) : Env :=
  withLocalStorage env (delete key (localStorage env)).

End Persistence.

(** ** Dependency injection (the framework's [Injector] and [inject]) *)

Definition ProviderToken : Type := string.

(** An injector resolves a token to the singleton registered for it. *)
Record Injector : Type := mkInjector {
  resolve : ProviderToken -> option JsValue
}.

(** The execution-context provider of the host framework, an external
    collaborator: [runInInjectionContext injector fn] runs [fn] in a context
    of its choosing, and [inject] resolves a token in the context the
    callback runs in. *)
Record ExecutionContext : Type := mkContext {
  runInInjectionContext :
    option Injector -> (option Injector -> Outcome JsValue) -> Outcome JsValue;
  inject : option Injector -> ProviderToken -> Outcome JsValue
}.

(** Modelled from the spec: store-query.ts is not among the sources.
    Section 4.1: the stores a query declares as dependencies and its
    function, applied to the resolved stores followed by the caller's
    arguments. *)
Record StoreQuery : Type := mkQuery {
  stores : list ProviderToken;
  query : list JsValue -> Outcome JsValue
}.

(** ** The store *)

(** A mutator changes the properties of the state object in place. *)
Definition Mutator : Type := list (string * JsValue) -> list (string * JsValue).

Definition applyMutator (m : Mutator) (v : JsValue) : JsValue :=
  match v with
  | JsObject r fields => JsObject r (m fields)
  | _ => v
  end.

Record Store : Type := mkStore {
  _state : JsValue;
  config : Config.t;
  history : option StoreHistory.t;
  injector : option Injector;
  (* the effect registered by the constructor, which saves the state *)
  storageEffect : bool
}.

Definition withState (s : Store) (v : JsValue) : Store :=
  mkStore v (config s) (history s) (injector s) (storageEffect s).

Definition withHistory (s : Store) (h : option StoreHistory.t) : Store :=
  mkStore (_state s) (config s) h (injector s) (storageEffect s).

Module StoreBase.

(** [static get mediator()] *)
Definition mediator (env : Env) : Mediator.t * Env :=
  match _mediator env with
  | Some m => (m, env)
  | None => (Mediator.empty, withMediator env (Some Mediator.empty))
  end.

(** [protected constructor(enableEvents)] *)
Definition constructor (enableEvents : bool) (env : Env) : Env :=
  match enableEvents, _mediator env with
  | true, None => withMediator env (Some Mediator.empty)
  | _, _ => env
  end.

End StoreBase.

Section StoreMethods.
Context `{Codec}.

Definition logWithGeneralStore (s : Store) (store context action : string)
    (params : list LogArg) (env : Env) : Env :=
  if Config.enableLogging (config s)
  then withConsole env
         (console env
            ++ [mkLog ("[" +:+ store +:+ "->" +:+ context +:+ "] " +:+ action) params])
  else env.

Definition log (s : Store) (context action : string) (params : list LogArg)
    (env : Env) : Env :=
  logWithGeneralStore s (Config.name (config s)) context action params env.

(** The default equality of the framework's signals: a primitive value
    equals itself, an object equals nothing, not even itself. *)
Definition defaultEquals (a b : JsValue) : bool :=
  match a, b with
  | JsUndefined, JsUndefined | JsNull, JsNull | JsNaN, JsNaN => true
  | JsBool x, JsBool y => Bool.eqb x y
  | JsNumber x, JsNumber y => x =? y
  | JsString x, JsString y => String.eqb x y
  | _, _ => false
  end.

(** The signal tells its consumers that it has changed.  Its one consumer
    is the effect the constructor registers with persistence enabled: the
    framework does not run an effect at once, it queues it for its next
    change detection, however often the signal changes until then. *)
Definition notify (s : Store) (env : Env) : Env :=
  if storageEffect s
  then withScheduled env ({[Config.name (config s)]} ∪ scheduled env)
  else env.

(** [this._state.set(v)]: a value equal to the current one is dropped. *)
Definition signalSet (s : Store) (v : JsValue) (env : Env) : Store * Env :=
  if defaultEquals (_state s) v then (s, env)
  else (withState s v, notify s env).

(** [this._state.update(fn)] is [set(fn(value))]. *)
Definition signalUpdate (s : Store) (fn : JsValue -> JsValue) (env : Env)
  : Store * Env :=
  signalSet s (fn (_state s)) env.

(** A change detection of the host framework, as far as the store is
    concerned: the effect [() => saveToStorage(name, this._state())] runs if
    it is queued, and leaves the queue. *)
Definition detectChanges (s : Store) (env : Env) : Env :=
  if storageEffect s && bool_decide (Config.name (config s) ∈ scheduled env)
  then saveToStorage (Config.name (config s)) (_state s)
         (withScheduled env (scheduled env ∖ {[Config.name (config s)]}))
  else env.

(** [new Store(config)], in a class named [className], constructed inside
    the injection context [ambient]. *)
Definition constructor (className : string) (ambient : Injector)
    (cfg : StoreConfig.t) (env : Env) : Store * Env :=
  let env := StoreBase.constructor (orElse (StoreConfig.enableEvents cfg) false) env in
  let config :=
    Config.mk
      (orElse (StoreConfig.name cfg) className)
      (StoreConfig.initialState cfg)
      (orElse (StoreConfig.enableEvents cfg) false)
      (orElse (StoreConfig.enableEffectsAndQueries cfg) false)
      (orElse (StoreConfig.enableLogging cfg) false)
      (orElse (StoreConfig.enableStateHistory cfg) false)
      (orElse (StoreConfig.enableLocalStorageSync cfg) false) in
  let history :=
    if enabled (StoreConfig.enableStateHistory cfg)
    then Some StoreHistory.empty else None in
  let injector :=
    if enabled (StoreConfig.enableEffectsAndQueries cfg)
    then Some ambient else None in
  if enabled (StoreConfig.enableLocalStorageSync cfg) then
    let persistedState := loadFromStorage (Config.name config) env in
    let s :=
      mkStore (coalesce persistedState (StoreConfig.initialState cfg))
        config history injector true in
    (* effect(() => saveToStorage(...)): queued for its first run *)
    let env := notify s env in
    let env :=
      log s "Init"
        (if truthy persistedState
         then "Store initialized from local storage"
         else "local storage is empty; store initialized using configured initial state")
        [ArgRawConfig cfg; ArgState (_state s)] env in
    (s, env)
  else
    let s := mkStore (StoreConfig.initialState cfg) config history injector false in
    (s, log s "Init" "Store initialized" [ArgRawConfig cfg] env).

(** [get state()] *)
Definition state (s : Store) : JsValue := _state s.

Definition getHistory (s : Store) : list StoreHistory.HistoryItem :=
  match history s with
  | Some h => StoreHistory.entries h
  | None => []
  end.

Definition clearPersistence (s : Store) (env : Env) : Store * Env :=
  (s, clearLocalStorage (Config.name (config s)) env).

Definition addToHistory (s : Store) (currentCommandName : option string) : Store :=
  match history s with
  | Some h =>
      withHistory s
        (Some (StoreHistory.add h (state s) (orElse currentCommandName "Unspecified")))
  | None => s
  end.

Definition set (s : Store) (newState : JsValue) (commandName : option string)
    (env : Env) : Store * Env :=
  let s := addToHistory s commandName in
  let '(s, env) := signalSet s newState env in
  (s, log s "Command" (orElse commandName "unspecified command")
        [ArgNewState (state s)] env).

Definition update (s : Store) (updateFn : JsValue -> JsValue)
    (commandName : option string) (env : Env) : Store * Env :=
  let s := addToHistory s commandName in
  let '(s', env) := signalUpdate s (fun state => updateFn state) env in
  (s', log s' "Command" (orElse commandName "unspecified command")
         [ArgNewState (state s')] env).

Definition mutate (s : Store) (mutator : Mutator) (commandName : option string)
    (env : Env) : Store * Env :=
  let s := addToHistory s commandName in
  (* this._state.mutate(mutator): the object is changed in place, and so
     is every snapshot that holds it; the signal always notifies *)
  let old := _state s in
  let new := applyMutator mutator old in
  let s' :=
    withHistory (withState s new)
      (option_map (StoreHistory.aliased old new) (history s)) in
  let env := notify s' env in
  (s', log s' "Command" (orElse commandName "unspecified command")
         [ArgNewState (state s')] env).

Definition undo (s : Store) (env : Env) : Store * Env :=
  match history s with
  | None =>
      (s, log s "Undo"
            "Attempted to perform an undo action, but enableStateHistory is not active"
            [ArgConfig (config s)] env)
  | Some h =>
      let '(newState, h') := StoreHistory.undo h (state s) in
      let s := withHistory s (Some h') in
      if truthy newState then
        let env := log s "Undo" "Performed an undo action" [] env in
        signalSet s newState env
      else
        (s, log s "Undo"
              "Attempted to perform an undo action but the state history is empty"
              [] env)
  end.

Definition redo (s : Store) (env : Env) : Store * Env :=
  match history s with
  | None =>
      (s, log s "Redo"
            "Attempted to perform a redo action, but enableStateHistory is not active"
            [ArgConfig (config s)] env)
  | Some h =>
      let '(newState, h') := StoreHistory.redo h (state s) in
      let s := withHistory s (Some h') in
      if truthy newState then
        let '(s, env) := signalSet s newState env in
        (s, log s "Redo" "Performed a redo action" [ArgState (state s)] env)
      else
        (s, log s "Redo"
              "Attempted to perform a redo action, but the prior action was not an undo action"
              [ArgState (state s)] env)
  end.

Definition registerHandler (s : Store) (event : StoreEvent) (handler : HandlerId)
    (withReplay : bool) (env : Env) : Store * Env :=
  let source := Config.name (config s) in
  let '(m, env) := StoreBase.mediator env in
  let m := Mediator.register m event source handler in
  let env := withMediator env (Some m) in
  let env :=
    if withReplay
    then
      let '(m, env) := StoreBase.mediator env in
      withHandled env (handled env ++ Mediator.replay m source)
    else env in
  (s, log s "Init" ("Register handler for event " +:+ eventName event) [] env).

Definition publish (s : Store) (event : StoreEvent) (payload : JsValue)
    (env : Env) : Store * Env :=
  let env :=
    if Config.enableLogging (config s)
    then log s "Event" ("Publish event " +:+ eventName event) [] env
    else env in
  let '(m, env) := StoreBase.mediator env in
  let '(m, ran, executedHandlerSources) := Mediator.publish m event payload in
  let env := withHandled (withMediator env (Some m)) (handled env ++ ran) in
  (s, fold_left
        (fun env handlerSource =>
           logWithGeneralStore s handlerSource "Handler" "Handled Event"
             [ArgEvent (eventName event) payload] env)
        executedHandlerSources env).

(** [runQuery(storeQuery, ...args)]: [this.injector!] is handed over as
    it is; the non-null assertion leaves no trace at run time. *)
Definition runQuery (ctx : ExecutionContext) (s : Store) (storeQuery : StoreQuery)
    (args : list JsValue) : Outcome JsValue :=
  runInInjectionContext ctx (injector s)
    (fun current =>
       bindO (mapO (inject ctx current) (stores storeQuery))
         (fun resolved => query storeQuery (resolved ++ args))).

End StoreMethods.

(** ** What the specification promises, in its own words *)

(** "records the pre-mutation state into History under [label]": the
    history read after the call is the one read before it, followed by the
    state held before the call under that label. *)
Definition recordsUnder (label : string) (before after : Store) : Prop :=
  getHistory after
  = getHistory before ++ [StoreHistory.mkItem (state before) label].

(** "ordered by descending precedence (ties broken by registration
    order)": a stable insertion into the chain.  A plugin without a
    precedence is ranked 0. *)
Definition rank (p : StorePlugin) : Z := orElse (precedence p) 0.

Fixpoint insertByPrecedence (p : StorePlugin) (chain : list StorePlugin)
  : list StorePlugin :=
  match chain with
  | [] => [p]
  | q :: chain' =>
      if rank q <? rank p then p :: q :: chain'
      else q :: insertByPrecedence p chain'
  end.

Definition byPrecedence (registered : list StorePlugin) : list StorePlugin :=
  fold_left (fun chain p => insertByPrecedence p chain) registered [].

(** "init(container): fired once when a container finishes constructing,
    for every plugin, highest precedence first". *)
Definition initCallsExpected (registered : list StorePlugin) (storeName : string)
  : list HookCall :=
  flat_map
    (fun p =>
       match init p with
       | Some f => [mkHookCall InitHook f storeName]
       | None => []
       end)
    (byPrecedence registered).

Definition raisesConfigurationError {A} (o : Outcome A) : Prop :=
  exists message, o = Threw (ConfigurationError message).

(** The environments [env] and [env'] differ at most in the console. *)
Definition sameButConsole (env env' : Env) : Prop :=
  localStorage env' = localStorage env
  /\ _mediator env' = _mediator env
  /\ handled env' = handled env
  /\ plugins env' = plugins env
  /\ hookCalls env' = hookCalls env
  /\ scheduled env' = scheduled env.

Definition noUndoEntry (s : Store) : Prop :=
  match history s with
  | None => True
  | Some h => StoreHistory.undoStack h = []
  end.

Definition noRedoEntry (s : Store) : Prop :=
  match history s with
  | None => True
  | Some h => StoreHistory.redoStack h = []
  end.

(** "With persistence enabled and an empty backend, constructing a
    container uses [initialState]; after one [set(newValue)],
    reconstructing a container of the same name yields [newValue]". *)
Definition survivesReload `{Codec} (className : string) (ambient : Injector)
    (cfg cfg' : StoreConfig.t) (env : Env) (newValue : JsValue) : Prop :=
  let created := constructor className ambient cfg env in
  let changed := set created.1 newValue None created.2 in
  let reloaded := constructor className ambient cfg' changed.2 in
  state created.1 = StoreConfig.initialState cfg
  /\ state reloaded.1 = newValue.

(** The same, when the host framework detects changes between the [set]
    and the new construction. *)
Definition survivesReloadOnceSaved `{Codec} (className : string)
    (ambient : Injector) (cfg cfg' : StoreConfig.t) (env : Env)
    (newValue : JsValue) : Prop :=
  let created := constructor className ambient cfg env in
  let changed := set created.1 newValue None created.2 in
  let saved := detectChanges changed.1 changed.2 in
  let reloaded := constructor className ambient cfg' saved in
  state created.1 = StoreConfig.initialState cfg
  /\ state reloaded.1 = newValue.

(** What a call of [log] adds to the console. *)
Definition noticeOf (s : Store) (context action : string) (params : list LogArg)
  : list LogEntry :=
  if Config.enableLogging (config s)
  then [mkLog ("[" +:+ Config.name (config s) +:+ "->" +:+ context +:+ "] " +:+ action)
          params]
  else [].

(** The notice of an undo that finds nothing to undo. *)
Definition undoNotice (s : Store) : list LogEntry :=
  match history s with
  | None =>
      noticeOf s "Undo"
        "Attempted to perform an undo action, but enableStateHistory is not active"
        [ArgConfig (config s)]
  | Some _ =>
      noticeOf s "Undo"
        "Attempted to perform an undo action but the state history is empty" []
  end.

(** The notice of a redo that finds nothing to redo. *)
Definition redoNotice (s : Store) : list LogEntry :=
  match history s with
  | None =>
      noticeOf s "Redo"
        "Attempted to perform a redo action, but enableStateHistory is not active"
        [ArgConfig (config s)]
  | Some _ =>
      noticeOf s "Redo"
        "Attempted to perform a redo action, but the prior action was not an undo action"
        [ArgState (state s)]
  end.

(** [set] called once for each value, in order, without a command name. *)
Fixpoint setEach (values : list JsValue) (s : Store) (env : Env)
  : Store * Env :=
  match values with
  | [] => (s, env)
  | v :: values' =>
      let '(s', env') := set s v None env in setEach values' s' env'
  end.

(** [undo] called [n] times. *)
Fixpoint undoTimes (n : nat) (s : Store) (env : Env) : Store * Env :=
  match n with
  | O => (s, env)
  | S n' => let '(s', env') := undo s env in undoTimes n' s' env'
  end.

(** The states held before each call of [setEach values]. *)
Definition statesBefore (s : Store) (values : list JsValue) : list JsValue :=
  removelast (state s :: values).

(** ** Sample data *)

Definition decimalOf (n : Z) : string :=
  DecimalString.NilZero.string_of_int (Z.to_int n).

Definition parseDecimal (text : string) : option Z :=
  option_map Z.of_int (DecimalString.NilZero.int_of_string text).

(** A small codec in the manner of JSON: null, booleans, integral numbers
    and strings (marked by a leading apostrophe) survive it; NaN is written
    as null; an undefined value or an object is written but not read
    back. *)
Definition sampleCodec : Codec := {|
  encode v :=
    match v with
    | JsUndefined => "undefined"
    | JsNull | JsNaN => "null"
    | JsBool true => "true"
    | JsBool false => "false"
    | JsNumber n => decimalOf n
    | JsString s => String "'"%char s
    | JsObject _ _ => "{}"
    end;
  decode text :=
    if String.eqb text "null" then Some JsNull
    else if String.eqb text "true" then Some (JsBool true)
    else if String.eqb text "false" then Some (JsBool false)
    else match text with
         | String "'"%char s => Some (JsString s)
         | _ => option_map JsNumber (parseDecimal text)
         end
|}.

Definition noInjector : Injector := mkInjector (fun _ => None).

Definition freshEnv : Env := mkEnv [] ∅ None [] [] [] ∅.

Definition counterConfig : StoreConfig.t :=
  StoreConfig.mk (Some "counter") (JsNumber 0) None None (Some true) (Some true) None.

(** The counter of the README, with history and logging enabled. *)
Definition counter : Store * Env :=
  @constructor sampleCodec "CounterStore" noInjector counterConfig freshEnv.

Definition increment (v : JsValue) : JsValue :=
  match v with
  | JsNumber n => JsNumber (n + 1)
  | _ => JsNaN
  end.

(** The counter after one [set(1)]. *)
Definition counterSetOnce : Store * Env :=
  set counter.1 (JsNumber 1) None counter.2.

(** Three increments from 0, each under the label "inc". *)
Definition counterAtThree : Store * Env :=
  let a := update counter.1 increment (Some "inc") counter.2 in
  let b := update a.1 increment (Some "inc") a.2 in
  update b.1 increment (Some "inc") b.2.

(** ... and one undo: the state is 2, one snapshot waits to be redone. *)
Definition counterBackAtTwo : Store * Env :=
  undo counterAtThree.1 counterAtThree.2.

Definition prefsConfig : StoreConfig.t :=
  StoreConfig.mk (Some "prefs") (JsString "light") None None None None (Some true).

(** A store of preferences, synchronised with the local storage; events,
    effects and queries, logging and history are left disabled. *)
Definition prefs : Store * Env :=
  @constructor sampleCodec "PrefsStore" noInjector prefsConfig freshEnv.

(** An execution-context provider in the manner of the host framework: it
    installs the injector it is given, absent or not, and runs the
    callback; resolving without an installed injector raises the
    framework's missing-context error, an unknown token its no-provider
    error. *)
Definition directContext : ExecutionContext := {|
  runInInjectionContext current fn := fn current;
  inject current token :=
    match current with
    | None => Threw (RuntimeError (-203))
    | Some i =>
        match resolve i token with
        | Some v => Returned v
        | None => Threw (RuntimeError (-201))
        end
    end
|}.

(** A query that depends on no store. *)
Definition answerQuery : StoreQuery :=
  mkQuery [] (fun _ => Returned (JsNumber 42)).

(** Two plugins with an [init] hook, registered process-wide. *)
Definition auditPlugin : StorePlugin :=
  mkPlugin (Some 5) (Some "audit.init") None None None None [].

Definition devtoolsPlugin : StorePlugin :=
  mkPlugin (Some 10) (Some "devtools.init") None None None None [].

Definition pluggedEnv : Env :=
  mkEnv [] ∅ None [] [auditPlugin; devtoolsPlugin] [] ∅.

Definition userLoggedIn : StoreEvent := mkEvent 1 "userLoggedIn".

Definition sessionConfig : StoreConfig.t :=
  StoreConfig.mk (Some "session") (JsString "guest") (Some true) None None None None.

(** A session store with events enabled registers a handler; then the
    preferences store, constructed with events disabled, publishes. *)
Definition sessionListening : Store * Env :=
  let created :=
    @constructor sampleCodec "SessionStore" noInjector sessionConfig freshEnv in
  registerHandler created.1 userLoggedIn "session.onLogin" false created.2.

Definition prefsPublishing : Store * Env :=
  let created :=
    @constructor sampleCodec "PrefsStore" noInjector prefsConfig sessionListening.2 in
  publish created.1 userLoggedIn (JsString "ada") created.2.

(** ** Sequences of calls

    The public methods of the store that return nothing, as one type, so
    that a property can be stated for every sequence of calls a user of the
    store can make. *)

Inductive Call : Type :=
| CallSet (newState : JsValue) (commandName : option string)
| CallUpdate (updateFn : JsValue -> JsValue) (commandName : option string)
| CallMutate (mutator : Mutator) (commandName : option string)
| CallUndo
| CallRedo
| CallRegisterHandler (event : StoreEvent) (handler : HandlerId) (withReplay : bool)
| CallPublish (event : StoreEvent) (payload : JsValue)
| CallClearPersistence.

Definition perform (call : Call) (s : Store) (env : Env) : Store * Env :=
  match call with
  | CallSet newState commandName => set s newState commandName env
  | CallUpdate updateFn commandName => update s updateFn commandName env
  | CallMutate mutator commandName => mutate s mutator commandName env
  | CallUndo => undo s env
  | CallRedo => redo s env
  | CallRegisterHandler event handler withReplay =>
      registerHandler s event handler withReplay env
  | CallPublish event payload => publish s event payload env
  | CallClearPersistence => clearPersistence s env
  end.

Fixpoint performAll (calls : list Call) (s : Store) (env : Env)
  : Store * Env :=
  match calls with
  | [] => (s, env)
  | call :: calls' =>
      let '(s', env') := perform call s env in performAll calls' s' env'
  end.

(** What happens to a store over time: its methods are called, and now
    and then the host framework detects changes. *)
Inductive Step : Type :=
| Invoke (call : Call)
| DetectChanges.

Fixpoint run `{Codec} (steps : list Step) (s : Store) (env : Env) : Store * Env :=
  match steps with
  | [] => (s, env)
  | Invoke call :: steps' =>
      let '(s', env') := perform call s env in run steps' s' env'
  | DetectChanges :: steps' => run steps' s (detectChanges s env)
  end.

Definition isClearPersistence (call : Call) : bool :=
  match call with CallClearPersistence => true | _ => false end.

Definition keepsPersistence (step : Step) : bool :=
  match step with
  | Invoke call => negb (isClearPersistence call)
  | DetectChanges => true
  end.

Definition isSome {A} (o : option A) : bool :=
  match o with Some _ => true | None => false end.


(** The entry of the local storage under the store's name is the encoding
    of the store's current state. *)
Definition mirrored `{Codec} (s : Store) (env : Env) : Prop :=
  localStorage env !! Config.name (config s) = Some (encode (_state s)).

(** What [publish] writes on the console: the announcement of the
    publication, then one line for each handler that ran, under the name of
    the store that registered the handler. *)
Definition publishNotices (s : Store) (event : StoreEvent) (payload : JsValue)
    (sources : list string) : list LogEntry :=
  if Config.enableLogging (config s)
  then mkLog ("[" +:+ Config.name (config s) +:+ "->" +:+ "Event" +:+ "] "
              +:+ ("Publish event " +:+ eventName event)) []
       :: map (fun source =>
                 mkLog ("[" +:+ source +:+ "->" +:+ "Handler" +:+ "] " +:+ "Handled Event")
                   [ArgEvent (eventName event) payload])
            sources
  else [].

(** The registrations the process-wide mediator holds for an event. *)
Definition registeredFor (env : Env) (event : StoreEvent) : list Mediator.Registration :=
  Mediator.registrationsOf (StoreBase.mediator env).1 event.

(** The payloads published so far for an event. *)
Definition publishedFor (env : Env) (event : StoreEvent) : list JsValue :=
  Mediator.lookupLedger (identity event) (Mediator.ledger (StoreBase.mediator env).1).

(** No handler is registered yet under the name [source]. *)
Definition sourceAbsent (source : string) (env : Env) : bool :=
  forallb
    (fun '(_, regs) =>
       forallb (fun r => negb (String.eqb (Mediator.source r) source)) regs)
    (Mediator.registry (StoreBase.mediator env).1).

(** Who ran, on which event and with which payload. *)
Definition summary (i : Mediator.Invocation) : string * HandlerId * nat * JsValue :=
  (Mediator.by_source i, Mediator.by_handler i, identity (Mediator.of_event i),
   Mediator.with_payload i).

Definition touchesEvents (call : Call) : bool :=
  match call with
  | CallRegisterHandler _ _ _ | CallPublish _ _ => true
  | _ => false
  end.

(** An injector that knows the counter store, here by its state. *)
Definition appInjector : Injector :=
  mkInjector (fun token =>
                if String.eqb token "CounterStore" then Some (JsNumber 3) else None).

Definition cartConfig : StoreConfig.t :=
  StoreConfig.mk (Some "cart") (JsNumber 0) None (Some true) None None None.

(** A store with effects and queries enabled, constructed inside the
    injection context of [appInjector]. *)
Definition cart : Store * Env :=
  @constructor sampleCodec "CartStore" appInjector cartConfig freshEnv.

(** A query over the counter store: the counter plus the argument. *)
Definition plusCounter : StoreQuery :=
  mkQuery ["CounterStore"]
    (fun queryArgs =>
       match queryArgs with
       | [JsNumber count; JsNumber n] => Returned (JsNumber (count + n))
       | _ => Threw (OtherError JsUndefined)
       end).

(** A query over a store that no injector knows. *)
Definition overUnknown : StoreQuery :=
  mkQuery ["CounterStore"; "GhostStore"] (fun _ => Returned JsNull).

(** ** Properties *)

Lemma withHistory_same (s : Store) : withHistory s (history s) = s.
Proof. by destruct s. Qed.

Lemma defaultEquals_eq (a b : JsValue) : defaultEquals a b = true -> a = b.
Proof.
  destruct a, b; cbn; try discriminate; try reflexivity.
  - intros Hb. by rewrite (eqb_prop _ _ Hb).
  - intros Hn. by rewrite (proj1 (Z.eqb_eq _ _) Hn).
  - intros Hs. by rewrite (proj1 (String.eqb_eq _ _) Hs).
Qed.

(** Whether or not the write is dropped, the store holds the value
    written. *)
Lemma signalSet_store (s : Store) (v : JsValue) (env : Env) :
  (signalSet s v env).1 = withState s v.
Proof.
  unfold signalSet. destruct (defaultEquals (_state s) v) eqn:Heq; [| done].
  apply defaultEquals_eq in Heq. destruct s. cbn in *. by subst.
Qed.

Lemma notify_env (s : Store) (env : Env) :
  console (notify s env) = console env
  /\ localStorage (notify s env) = localStorage env
  /\ _mediator (notify s env) = _mediator env
  /\ handled (notify s env) = handled env
  /\ plugins (notify s env) = plugins env
  /\ hookCalls (notify s env) = hookCalls env.
Proof. unfold notify. by destruct (storageEffect s). Qed.

Lemma signalSet_env (s : Store) (v : JsValue) (env : Env) :
  console (signalSet s v env).2 = console env
  /\ localStorage (signalSet s v env).2 = localStorage env
  /\ _mediator (signalSet s v env).2 = _mediator env
  /\ handled (signalSet s v env).2 = handled env
  /\ plugins (signalSet s v env).2 = plugins env
  /\ hookCalls (signalSet s v env).2 = hookCalls env.
Proof.
  unfold signalSet. destruct (defaultEquals (_state s) v); [done |].
  apply notify_env.
Qed.

Lemma set_store (s : Store) (v : JsValue) (c : option string) (env : Env) :
  (set s v c env).1 = withState (addToHistory s c) v.
Proof.
  unfold set. rewrite <- (signalSet_store (addToHistory s c) v env).
  by destruct (signalSet (addToHistory s c) v env).
Qed.

Lemma update_store (s : Store) (f : JsValue -> JsValue) (c : option string)
    (env : Env) :
  (update s f c env).1 = withState (addToHistory s c) (f (_state (addToHistory s c))).
Proof.
  unfold update, signalUpdate.
  rewrite <- (signalSet_store (addToHistory s c) (f (_state (addToHistory s c))) env).
  by destruct (signalSet (addToHistory s c) _ env).
Qed.

Lemma undo_store (s : Store) (env : Env) :
  (undo s env).1
  = match history s with
    | None => s
    | Some h =>
        let s' := withHistory s (Some (StoreHistory.undo h (state s)).2) in
        if truthy (StoreHistory.undo h (state s)).1
        then withState s' (StoreHistory.undo h (state s)).1
        else s'
    end.
Proof.
  unfold undo. destruct (history s) as [h|]; [| done].
  destruct (StoreHistory.undo h (state s)) as [newState h']. cbn.
  destruct (truthy newState); [| done]. apply signalSet_store.
Qed.

Lemma redo_store (s : Store) (env : Env) :
  (redo s env).1
  = match history s with
    | None => s
    | Some h =>
        let s' := withHistory s (Some (StoreHistory.redo h (state s)).2) in
        if truthy (StoreHistory.redo h (state s)).1
        then withState s' (StoreHistory.redo h (state s)).1
        else s'
    end.
Proof.
  unfold redo. destruct (history s) as [h|]; [| done].
  destruct (StoreHistory.redo h (state s)) as [newState h']. cbn.
  destruct (truthy newState); [| done].
  rewrite <- (signalSet_store (withHistory s (Some h')) newState env).
  by destruct (signalSet (withHistory s (Some h')) newState env).
Qed.

Lemma state_addToHistory (s : Store) (c : option string) :
  _state (addToHistory s c) = _state s.
Proof. unfold addToHistory. by destruct (history s). Qed.

Lemma config_addToHistory (s : Store) (c : option string) :
  config (addToHistory s c) = config s.
Proof. unfold addToHistory. by destruct (history s). Qed.

Lemma getHistory_addToHistory (s : Store) (h : StoreHistory.t) (c : option string) :
  history s = Some h ->
  getHistory (addToHistory s c)
  = getHistory s ++ [StoreHistory.mkItem (state s) (orElse c "Unspecified")].
Proof.
  intros Hh. unfold getHistory, addToHistory. rewrite Hh. reflexivity.
Qed.

(** C5.  [update(f, c)] is [set(f(s), c)] for the state [s] current at the
    call: the two leave the same store (state, history, configuration) and
    the same environment (console, local storage, mediator). *)
Theorem update_is_set_of_applied (s : Store) (f : JsValue -> JsValue)
    (c : option string) (env : Env) :
  update s f c env = set s (f (state s)) c env.
Proof.
  unfold update, set, signalUpdate, state.
  by rewrite state_addToHistory.
Qed.

(** *** The label of a command without a name *)

(** C4, as stated, fails: after [set(1)] without a command name on the
    counter, the history does not hold the former state under the label
    "unspecified command". *)
Lemma set_does_not_record_unspecified_command :
  ~ recordsUnder "unspecified command" counter.1 counterSetOnce.1.
Proof. unfold recordsUnder. vm_compute. discriminate. Qed.

(** C4, amended.  With history enabled, [set] and [update] without a
    command name record the state held before the call under the label
    "Unspecified"; [mutate] without a command name records under the same
    label the state object itself, which is the newest entry of the
    history. *)
Theorem unnamed_command_recorded_as_Unspecified (s : Store)
    (h : StoreHistory.t) (v : JsValue) (f : JsValue -> JsValue) (m : Mutator)
    (env : Env) :
  history s = Some h ->
  recordsUnder "Unspecified" s (set s v None env).1
  /\ recordsUnder "Unspecified" s (update s f None env).1
  /\ last (getHistory (mutate s m None env).1)
     = Some (StoreHistory.mkItem (state (mutate s m None env).1) "Unspecified").
Proof.
  intros Hh. unfold recordsUnder. repeat split.
  - rewrite set_store. apply (getHistory_addToHistory s h None Hh).
  - rewrite update_store. apply (getHistory_addToHistory s h None Hh).
  - unfold mutate, getHistory, addToHistory, state. rewrite Hh. cbn.
    unfold StoreHistory.entries, StoreHistory.alias. cbn.
    rewrite last_snoc. f_equal.
    destruct (_state s); cbn; try reflexivity.
    by rewrite Nat.eqb_refl.
Qed.

Lemma unnamed_command_recorded_as_Unspecified_witness :
  history counter.1 = Some StoreHistory.empty
  /\ recordsUnder "Unspecified" counter.1 counterSetOnce.1.
Proof.
  split; [reflexivity |].
  apply (unnamed_command_recorded_as_Unspecified counter.1
           StoreHistory.empty (JsNumber 1) increment (fun fields => fields)
           counter.2).
  reflexivity.
Defined.

(** *** Undo and redo *)

(** C1.  The history hands back a snapshot, yet [undo] keeps the current
    state whenever that snapshot is falsy (0, the empty string, false,
    null): the entry leaves the undo-stack for the redo-stack and the state
    is not replaced. *)
Theorem undo_keeps_state_on_falsy_snapshot (s : Store)
    (h : StoreHistory.t) (e : StoreHistory.HistoryItem)
    (rest : list StoreHistory.HistoryItem) (env : Env) :
  history s = Some h ->
  StoreHistory.undoStack h = e :: rest ->
  truthy (StoreHistory.state e) = false ->
  state (undo s env).1 = state s
  /\ history (undo s env).1
     = Some (StoreHistory.mk rest
               (StoreHistory.mkItem (state s) (StoreHistory.commandLabel e)
                  :: StoreHistory.redoStack h)).
Proof.
  intros Hh Hstack Hfalsy.
  unfold undo, StoreHistory.undo. rewrite Hh, Hstack, Hfalsy. by cbn.
Qed.

Lemma undo_keeps_state_on_falsy_snapshot_witness :
  state counter.1 = JsNumber 0
  /\ state counterSetOnce.1 = JsNumber 1
  /\ state (undo counterSetOnce.1 counterSetOnce.2).1 = JsNumber 1.
Proof.
  split; [reflexivity |]. split; [reflexivity |].
  apply (undo_keeps_state_on_falsy_snapshot counterSetOnce.1
           (StoreHistory.mk [StoreHistory.mkItem (JsNumber 0) "Unspecified"] [])
           (StoreHistory.mkItem (JsNumber 0) "Unspecified") [] counterSetOnce.2);
    reflexivity.
Defined.

Lemma undo_step (s : Store) (h : StoreHistory.t)
    (e : StoreHistory.HistoryItem) (rest : list StoreHistory.HistoryItem)
    (env : Env) :
  history s = Some h ->
  StoreHistory.undoStack h = e :: rest ->
  truthy (StoreHistory.state e) = true ->
  let h' :=
    StoreHistory.mk rest
      (StoreHistory.mkItem (state s) (StoreHistory.commandLabel e)
         :: StoreHistory.redoStack h) in
  _state (undo s env).1 = StoreHistory.state e
  /\ history (undo s env).1 = Some h'.
Proof.
  intros Hh Hstack Hsnap. rewrite undo_store, Hh. unfold StoreHistory.undo.
  rewrite Hstack. cbn. rewrite Hsnap. by cbn.
Qed.

Lemma redo_step (s : Store) (h : StoreHistory.t)
    (e : StoreHistory.HistoryItem) (rest : list StoreHistory.HistoryItem)
    (env : Env) :
  history s = Some h ->
  StoreHistory.redoStack h = e :: rest ->
  truthy (StoreHistory.state e) = true ->
  let h' :=
    StoreHistory.mk
      (StoreHistory.mkItem (state s) (StoreHistory.commandLabel e)
         :: StoreHistory.undoStack h) rest in
  _state (redo s env).1 = StoreHistory.state e
  /\ history (redo s env).1 = Some h'.
Proof.
  intros Hh Hstack Hsnap. rewrite redo_store, Hh. unfold StoreHistory.redo.
  rewrite Hstack. cbn. rewrite Hsnap. by cbn.
Qed.

Lemma redo_nothing (s : Store) (h : StoreHistory.t) (env : Env) :
  history s = Some h ->
  StoreHistory.redoStack h = [] ->
  (redo s env).1 = s.
Proof.
  intros Hh Hstack. unfold redo, StoreHistory.redo.
  rewrite Hh, Hstack. cbn. by rewrite <- Hh, withHistory_same.
Qed.

Lemma set_step (s : Store) (h : StoreHistory.t) (v : JsValue)
    (c : option string) (env : Env) :
  history s = Some h ->
  _state (set s v c env).1 = v
  /\ history (set s v c env).1
     = Some (StoreHistory.add h (state s) (orElse c "Unspecified")).
Proof.
  intros Hh. rewrite set_store. unfold addToHistory. rewrite Hh. by cbn.
Qed.

Lemma removelast_cons2 {A} (x y : A) (l : list A) :
  removelast (x :: y :: l) = x :: removelast (y :: l).
Proof. reflexivity. Qed.

Lemma setEach_pushes (values : list JsValue) (s : Store)
    (h : StoreHistory.t) (env : Env) :
  history s = Some h ->
  exists h',
    history (setEach values s env).1 = Some h'
    /\ StoreHistory.undoStack h'
       = rev (map (fun v => StoreHistory.mkItem v "Unspecified") (statesBefore s values))
           ++ StoreHistory.undoStack h.
Proof.
  revert s h env. induction values as [| v values IH]; intros s h env Hh.
  - exists h. by split.
  - destruct (set_step s h v None env Hh) as [Hstate Hhist].
    cbn [setEach]. destruct (set s v None env) as [s' env'].
    cbn in Hstate, Hhist.
    destruct (IH s' _ env' Hhist) as (h' & Hh' & Hstack).
    exists h'. split; [exact Hh' |].
    rewrite Hstack. unfold statesBefore, state. rewrite Hstate.
    rewrite removelast_cons2. cbn [map rev StoreHistory.add StoreHistory.undoStack].
    by rewrite <- app_assoc.
Qed.

Lemma undoTimes_pops (items : list StoreHistory.HistoryItem) (s : Store)
    (h : StoreHistory.t) (u : list StoreHistory.HistoryItem) (env : Env) :
  history s = Some h ->
  StoreHistory.undoStack h = items ++ u ->
  Forall (fun e => truthy (StoreHistory.state e) = true) items ->
  state (undoTimes (length items) s env).1
  = match last items with Some e => StoreHistory.state e | None => state s end.
Proof.
  revert s h env. induction items as [| e items IH]; intros s h env Hh Hstack Hall.
  - reflexivity.
  - inversion Hall as [| ? ? He Hrest]; subst.
    destruct (undo_step s h e (items ++ u) env Hh Hstack He) as [Hstate Hhist].
    cbn [length undoTimes]. destruct (undo s env) as [s' env'] eqn:Hundo.
    cbn in Hstate, Hhist.
    rewrite (IH s' _ env' Hhist eq_refl Hrest).
    rewrite last_cons. destruct (last items); [reflexivity | exact Hstate].
Qed.

(** X11.  Away from falsy snapshots the history is last in, first out: after
    [set] has been called with each of [values], as many undos bring back
    the state held before the first of these calls, provided every state
    held before one of the calls is truthy. *)
Lemma undo_restores_truthy_states (values : list JsValue) (s : Store)
    (h : StoreHistory.t) (env : Env) :
  history s = Some h ->
  Forall (fun v => truthy v = true) (statesBefore s values) ->
  let changed := setEach values s env in
  state (undoTimes (length values) changed.1 changed.2).1 = state s.
Proof.
  intros Hh Hall changed.
  destruct (setEach_pushes values s h env Hh) as (h' & Hh' & Hstack).
  fold changed in Hh'.
  set (items := rev (map (fun v => StoreHistory.mkItem v "Unspecified")
                       (statesBefore s values))) in *.
  assert (length items = length values) as Hlen.
  { unfold items, statesBefore. rewrite length_rev, length_map.
    destruct values as [| v values]; [reflexivity |].
    rewrite removelast_cons2. cbn [length]. f_equal.
    clear. revert v. induction values as [| w values IH]; intros v; [reflexivity |].
    rewrite removelast_cons2. cbn [length]. by rewrite IH. }
  rewrite <- Hlen.
  rewrite (undoTimes_pops items changed.1 h' (StoreHistory.undoStack h) changed.2
             Hh' Hstack).
  - unfold items, statesBefore.
    destruct values as [| v values]; [reflexivity |].
    rewrite removelast_cons2. cbn [map rev]. by rewrite last_snoc.
  - unfold items. apply Forall_rev, Forall_map.
    eapply Forall_impl; [exact Hall |]. by intros v Hv.
Qed.

(** C6, as stated, fails: on the counter brought to 3 and undone once, an
    undo followed by a redo gives back the state 2, but a second redo does
    not leave it unchanged: the redo-stack still holds the snapshot 3. *)
Lemma second_redo_changes_state :
  let afterUndo := undo counterBackAtTwo.1 counterBackAtTwo.2 in
  let afterRedo := redo afterUndo.1 afterUndo.2 in
  let afterSecondRedo := redo afterRedo.1 afterRedo.2 in
  ~ (state afterRedo.1 = state counterBackAtTwo.1
     /\ state afterSecondRedo.1 = state afterRedo.1).
Proof. vm_compute. intros [_ Habs]. discriminate Habs. Qed.

(** C6, amended.  With history enabled, a non-empty undo-stack, and both
    the current state and the snapshot on top of the undo-stack truthy, a
    redo right after an undo restores the state held before the undo; the
    redo after that leaves the state unchanged when the redo-stack was
    empty before the undo. *)
Theorem redo_after_undo_restores (s : Store) (h : StoreHistory.t)
    (e : StoreHistory.HistoryItem) (rest : list StoreHistory.HistoryItem)
    (env : Env) :
  history s = Some h ->
  StoreHistory.undoStack h = e :: rest ->
  truthy (StoreHistory.state e) = true ->
  truthy (state s) = true ->
  let afterUndo := undo s env in
  let afterRedo := redo afterUndo.1 afterUndo.2 in
  let afterSecondRedo := redo afterRedo.1 afterRedo.2 in
  state afterUndo.1 = StoreHistory.state e
  /\ state afterRedo.1 = state s
  /\ (StoreHistory.redoStack h = [] -> state afterSecondRedo.1 = state afterRedo.1).
Proof.
  intros Hh Hstack Hsnap Hcur afterUndo afterRedo afterSecondRedo.
  destruct (undo_step s h e rest env Hh Hstack Hsnap) as [Hu1 Hu2].
  fold afterUndo in Hu1, Hu2.
  destruct (redo_step afterUndo.1 _ _ _ afterUndo.2 Hu2 eq_refl Hcur) as [Hr1 Hr2].
  fold afterRedo in Hr1, Hr2.
  split; [exact Hu1 |]. split; [exact Hr1 |].
  intros Hempty. unfold afterSecondRedo.
  by rewrite (redo_nothing afterRedo.1 _ afterRedo.2 Hr2 Hempty).
Qed.

Lemma redo_after_undo_restores_witness :
  let s := counterAtThree.1 in
  let afterUndo := undo s counterAtThree.2 in
  let afterRedo := redo afterUndo.1 afterUndo.2 in
  let afterSecondRedo := redo afterRedo.1 afterRedo.2 in
  state s = JsNumber 3
  /\ (state afterUndo.1 = JsNumber 2
      /\ state afterRedo.1 = state s
      /\ (StoreHistory.redoStack
            (StoreHistory.mk
               [StoreHistory.mkItem (JsNumber 2) "inc";
                StoreHistory.mkItem (JsNumber 1) "inc";
                StoreHistory.mkItem (JsNumber 0) "inc"] []) = [] ->
          state afterSecondRedo.1 = state afterRedo.1)).
Proof.
  split; [reflexivity |].
  apply (redo_after_undo_restores counterAtThree.1
           (StoreHistory.mk
              [StoreHistory.mkItem (JsNumber 2) "inc";
               StoreHistory.mkItem (JsNumber 1) "inc";
               StoreHistory.mkItem (JsNumber 0) "inc"] [])
           (StoreHistory.mkItem (JsNumber 2) "inc")
           [StoreHistory.mkItem (JsNumber 1) "inc";
            StoreHistory.mkItem (JsNumber 0) "inc"]
           counterAtThree.2);
    reflexivity.
Defined.

(** The scenario of the specification: three increments bring the counter
    to 3 with three entries labelled "inc"; two undos bring it to 1; one
    redo to 2. *)
Example counter_scenario :
  let once := undo counterAtThree.1 counterAtThree.2 in
  let twice := undo once.1 once.2 in
  let again := redo twice.1 twice.2 in
  state counterAtThree.1 = JsNumber 3
  /\ map StoreHistory.commandLabel (getHistory counterAtThree.1) = ["inc"; "inc"; "inc"]
  /\ state twice.1 = JsNumber 1
  /\ state again.1 = JsNumber 2.
Proof. vm_compute. by repeat split. Qed.

Lemma log_sameButConsole (s : Store) (context action : string)
    (params : list LogArg) (env : Env) :
  sameButConsole env (log s context action params env)
  /\ console (log s context action params env)
     = console env ++ noticeOf s context action params.
Proof.
  unfold log, logWithGeneralStore, noticeOf, sameButConsole.
  destruct (Config.enableLogging (config s)); cbn.
  - by repeat split.
  - rewrite app_nil_r. by repeat split.
Qed.

(** C7.  [undo] with history disabled or an empty undo-stack, and [redo]
    with history disabled or an empty redo-stack, return normally with the
    store as it was (state and history alike); the environment changes in
    the console alone, which gains the notice of the failure when logging is
    enabled and nothing otherwise. *)
Theorem undo_redo_soft_fail (s : Store) (env : Env) :
  (noUndoEntry s ->
   (undo s env).1 = s
   /\ sameButConsole env (undo s env).2
   /\ console (undo s env).2 = console env ++ undoNotice s)
  /\ (noRedoEntry s ->
      (redo s env).1 = s
      /\ sameButConsole env (redo s env).2
      /\ console (redo s env).2 = console env ++ redoNotice s).
Proof.
  split; intros Hno.
  - unfold noUndoEntry in Hno. unfold undo, StoreHistory.undo, undoNotice.
    destruct (history s) as [h|] eqn:Hh.
    + rewrite Hno. cbn. rewrite <- Hh, withHistory_same.
      split; [reflexivity |]. split; apply log_sameButConsole.
    + cbn. split; [reflexivity |]. split; apply log_sameButConsole.
  - unfold noRedoEntry in Hno. unfold redo, StoreHistory.redo, redoNotice.
    destruct (history s) as [h|] eqn:Hh.
    + rewrite Hno. cbn. rewrite <- Hh, withHistory_same.
      split; [reflexivity |]. split; apply log_sameButConsole.
    + cbn. split; [reflexivity |]. split; apply log_sameButConsole.
Qed.

Lemma undo_redo_soft_fail_witness :
  noUndoEntry counter.1
  /\ noRedoEntry counter.1
  /\ (undo counter.1 counter.2).1 = counter.1
  /\ (redo counter.1 counter.2).1 = counter.1.
Proof.
  split; [reflexivity |]. split; [reflexivity |].
  destruct (undo_redo_soft_fail counter.1 counter.2) as [Hundo Hredo].
  split.
  - apply Hundo. reflexivity.
  - apply Hredo. reflexivity.
Defined.

(** *** Persistence *)

Lemma localStorage_log (s : Store) (context action : string)
    (params : list LogArg) (env : Env) :
  localStorage (log s context action params env) = localStorage env.
Proof. apply log_sameButConsole. Qed.

Lemma localStorage_StoreBase (b : bool) (env : Env) :
  localStorage (StoreBase.constructor b env) = localStorage env.
Proof. unfold StoreBase.constructor. by destruct b, (_mediator env). Qed.

Lemma constructor_synchronised `{Codec} (className : string) (ambient : Injector)
    (cfg : StoreConfig.t) (env : Env) :
  enabled (StoreConfig.enableLocalStorageSync cfg) = true ->
  let name := orElse (StoreConfig.name cfg) className in
  let created := constructor className ambient cfg env in
  _state created.1
  = coalesce (loadFromStorage name env) (StoreConfig.initialState cfg)
  /\ storageEffect created.1 = true
  /\ Config.name (config created.1) = name
  /\ localStorage created.2 = localStorage env
  /\ name ∈ scheduled created.2.
Proof.
  intros Hsync. unfold constructor. rewrite Hsync. cbn.
  unfold loadFromStorage. rewrite localStorage_StoreBase.
  rewrite localStorage_log.
  match goal with |- context [log ?a ?b ?c ?d ?e] =>
    destruct (log_sameButConsole a b c d e) as [(_ & _ & _ & _ & _ & ->) _] end.
  unfold notify. cbn. rewrite localStorage_StoreBase.
  repeat split. set_solver.
Qed.

Lemma set_env (s : Store) (v : JsValue) (c : option string) (env : Env) :
  localStorage (set s v c env).2 = localStorage env
  /\ scheduled env ⊆ scheduled (set s v c env).2.
Proof.
  unfold set, signalSet, notify.
  destruct (defaultEquals (_state (addToHistory s c)) v),
    (storageEffect (addToHistory s c)); cbn;
    match goal with |- context [log ?a ?b ?c ?d ?e] =>
      destruct (log_sameButConsole a b c d e) as [(-> & _ & _ & _ & _ & ->) _] end;
    cbn; split; set_solver.
Qed.

Lemma detectChanges_saves `{Codec} (s : Store) (env : Env) :
  storageEffect s = true ->
  Config.name (config s) ∈ scheduled env ->
  localStorage (detectChanges s env)
  = <[Config.name (config s) := encode (_state s)]> (localStorage env).
Proof.
  intros Heff Hin. unfold detectChanges. rewrite Heff. cbn.
  by rewrite bool_decide_eq_true_2.
Qed.

(** C8, as stated, fails twice over.  The preferences store is set to
    "dark" and a store of the same name is constructed anew before the host
    framework has detected changes: the storage effect is still queued,
    nothing has been saved, and the new store starts from its configured
    initial state.  And when the store is set to null and the effect has run,
    the persisted null is taken for a missing entry: the new store again
    starts from its configured initial state. *)
Lemma unsaved_or_null_value_is_not_reloaded :
  ~ @survivesReload sampleCodec "PrefsStore" noInjector prefsConfig prefsConfig
      freshEnv (JsString "dark")
  /\ ~ @survivesReloadOnceSaved sampleCodec "PrefsStore" noInjector prefsConfig
        prefsConfig freshEnv JsNull.
Proof.
  split.
  - unfold survivesReload. vm_compute. intros [_ Habs]. discriminate Habs.
  - unfold survivesReloadOnceSaved. vm_compute. intros [_ Habs]. discriminate Habs.
Qed.

(** C8, amended.  With persistence enabled and no entry under the store's
    name, the initial state is the configured one; after one
    [set(newValue)] followed by a change detection of the host framework,
    which runs the queued storage effect, and where [newValue] is neither
    null nor undefined and is read back from its encoding, a new store
    constructed with persistence enabled under the same name starts from
    [newValue]. *)
Theorem set_value_survives_reload `{Codec} (className : string)
    (ambient : Injector) (cfg cfg' : StoreConfig.t) (env : Env)
    (newValue : JsValue) :
  enabled (StoreConfig.enableLocalStorageSync cfg) = true ->
  enabled (StoreConfig.enableLocalStorageSync cfg') = true ->
  orElse (StoreConfig.name cfg') className = orElse (StoreConfig.name cfg) className ->
  localStorage env !! orElse (StoreConfig.name cfg) className = None ->
  nullish newValue = false ->
  decode (encode newValue) = Some newValue ->
  survivesReloadOnceSaved className ambient cfg cfg' env newValue.
Proof.
  intros Hsync Hsync' Hname Hempty Hvalue Hcodec.
  unfold survivesReloadOnceSaved. cbn zeta.
  destruct (constructor_synchronised className ambient cfg env Hsync)
    as (Hstate & Heff & Hcfg & _ & Hqueued).
  split.
  - unfold state. rewrite Hstate. unfold loadFromStorage. by rewrite Hempty.
  - set (created := constructor className ambient cfg env) in *.
    set (changed := set created.1 newValue None created.2).
    assert (changed.1 = withState (addToHistory created.1 None) newValue) as Hstore
      by apply set_store.
    assert (storageEffect changed.1 = true /\ _state changed.1 = newValue
            /\ Config.name (config changed.1)
               = orElse (StoreConfig.name cfg) className) as (Heff' & Hst' & Hcfg').
    { rewrite Hstore. cbn. unfold addToHistory.
      destruct (history created.1); cbn; by rewrite Heff, Hcfg. }
    assert (Config.name (config changed.1) ∈ scheduled changed.2) as Hqueued'.
    { rewrite Hcfg'. by apply (proj2 (set_env created.1 newValue None created.2)). }
    set (saved := detectChanges changed.1 changed.2).
    destruct (constructor_synchronised className ambient cfg' saved Hsync')
      as (Hstate' & _).
    unfold state. rewrite Hstate'. unfold loadFromStorage, saved.
    rewrite (detectChanges_saves _ _ Heff' Hqueued'), Hcfg', Hname, Hst'.
    rewrite lookup_insert_eq, Hcodec.
    unfold coalesce. by rewrite Hvalue.
Qed.

Lemma set_value_survives_reload_witness :
  @survivesReloadOnceSaved sampleCodec "PrefsStore" noInjector prefsConfig
    prefsConfig freshEnv (JsString "dark").
Proof.
  apply (@set_value_survives_reload sampleCodec "PrefsStore" noInjector
           prefsConfig prefsConfig freshEnv (JsString "dark"));
    reflexivity.
Defined.

(** C9.  [clearPersistence] removes from the local storage the entry under
    the store's name and no other; the store, its state included, and the
    rest of the environment are as before. *)
Theorem clearPersistence_removes_own_entry (s : Store) (env : Env) :
  let after := clearPersistence s env in
  after.1 = s
  /\ state after.1 = state s
  /\ localStorage after.2 !! Config.name (config s) = None
  /\ localStorage after.2 = delete (Config.name (config s)) (localStorage env)
  /\ console after.2 = console env
  /\ _mediator after.2 = _mediator env
  /\ handled after.2 = handled env.
Proof.
  cbn. repeat split. apply lookup_delete_eq.
Qed.

(** *** Events *)

Lemma lookupRegs_appendReg (ev : StoreEvent) (x : Mediator.Registration)
    (r : list (StoreEvent * list Mediator.Registration)) :
  Mediator.lookupRegs (identity ev) (Mediator.appendReg ev x r)
  = Mediator.lookupRegs (identity ev) r ++ [x].
Proof.
  induction r as [| [e regs] r IH]; cbn.
  - by rewrite Nat.eqb_refl.
  - destruct (Nat.eqb (identity e) (identity ev)) eqn:Heq; cbn; rewrite Heq.
    + reflexivity.
    + exact IH.
Qed.

Lemma handled_logs (s : Store) (context action : string) (params : list LogArg)
    (sources : list string) (env : Env) :
  handled
    (fold_left
       (fun env source => logWithGeneralStore s source context action params env)
       sources env)
  = handled env
  /\ _mediator
       (fold_left
          (fun env source => logWithGeneralStore s source context action params env)
          sources env)
     = _mediator env.
Proof.
  revert env. induction sources as [| src sources IH]; intros env; cbn.
  - by split.
  - destruct (IH (logWithGeneralStore s src context action params env)) as [-> ->].
    unfold logWithGeneralStore. by destruct (Config.enableLogging (config s)).
Qed.

(** Constructing a store with events disabled does not create the
    mediator. *)
Lemma constructor_without_events `{Codec} (className : string) (ambient : Injector)
    (cfg : StoreConfig.t) (env : Env) :
  orElse (StoreConfig.enableEvents cfg) false = false ->
  _mediator (constructor className ambient cfg env).2 = _mediator env.
Proof.
  intros Hoff. unfold constructor. rewrite Hoff.
  destruct (enabled (StoreConfig.enableLocalStorageSync cfg)); cbn;
    unfold log, logWithGeneralStore; cbn;
    by destruct (orElse (StoreConfig.enableLogging cfg) false).
Qed.

Lemma publish_through_mediator (s : Store) (event : StoreEvent)
    (payload : JsValue) (env : Env) :
  let m := (StoreBase.mediator env).1 in
  handled (publish s event payload env).2
  = handled env
      ++ map (Mediator.invoke event payload) (Mediator.registrationsOf m event)
  /\ _mediator (publish s event payload env).2
     = Some (Mediator.mk (Mediator.registry m)
               (Mediator.appendLedger (identity event) payload (Mediator.ledger m)))
  /\ (publish s event payload env).1 = s.
Proof.
  cbn zeta. unfold publish.
  set (env0 := if Config.enableLogging (config s) then _ else env).
  assert (_mediator env0 = _mediator env /\ handled env0 = handled env)
    as [Hm Hh].
  { unfold env0. destruct (Config.enableLogging (config s)); [| by split].
    destruct (log_sameButConsole s "Event" ("Publish event " +:+ eventName event)
                [] env) as [(_ & Hm & Hh & _) _].
    by split. }
  clearbody env0. unfold StoreBase.mediator. rewrite Hm.
  destruct (_mediator env) as [m|]; unfold Mediator.publish;
    cbn -[logWithGeneralStore];
    rewrite ?(proj1 (handled_logs _ _ _ _ _ _)), ?(proj2 (handled_logs _ _ _ _ _ _));
    cbn; by rewrite Hh.
Qed.


(** *** Plugins *)

(** C2, as stated, fails: with two plugins registered process-wide, each
    with an [init] hook, constructing the preferences store fires neither
    hook. *)
Lemma constructor_fires_no_init_hook :
  let created :=
    @constructor sampleCodec "PrefsStore" noInjector prefsConfig pluggedEnv in
  initCallsExpected (plugins pluggedEnv) (Config.name (config created.1))
  = [mkHookCall InitHook "devtools.init" "prefs";
     mkHookCall InitHook "audit.init" "prefs"]
  /\ hookCalls created.2
     <> hookCalls pluggedEnv
          ++ initCallsExpected (plugins pluggedEnv) (Config.name (config created.1)).
Proof. vm_compute. split; [reflexivity | discriminate]. Qed.

(** C2, amended.  The constructor calls no plugin hook: whatever plugins
    are registered, the hook calls made by the end of the construction are
    those made before it, and the registered plugins are left as they
    were. *)
Theorem constructor_calls_no_plugin_hook `{Codec} (className : string)
    (ambient : Injector) (cfg : StoreConfig.t) (env : Env) :
  hookCalls (constructor className ambient cfg env).2 = hookCalls env
  /\ plugins (constructor className ambient cfg env).2 = plugins env.
Proof.
  unfold constructor.
  assert (forall b e, hookCalls (StoreBase.constructor b e) = hookCalls e
                      /\ plugins (StoreBase.constructor b e) = plugins e) as Hbase.
  { intros b e. unfold StoreBase.constructor. by destruct b, (_mediator e). }
  destruct (enabled (StoreConfig.enableLocalStorageSync cfg)); cbn -[log].
  - match goal with
    | |- context [log ?s ?c ?a ?p ?e] =>
        destruct (log_sameButConsole s c a p e) as [(_ & _ & _ & -> & -> & _) _]
    end.
    unfold notify. cbn. apply Hbase.
  - match goal with
    | |- context [log ?s ?c ?a ?p ?e] =>
        destruct (log_sameButConsole s c a p e) as [(_ & _ & _ & -> & -> & _) _]
    end.
    apply Hbase.
Qed.

(** *** Queries *)

Lemma raisesConfigurationError_Threw {A B} (e : JsError) :
  raisesConfigurationError (@Threw A e) -> raisesConfigurationError (@Threw B e).
Proof. intros [msg Heq]. exists msg. congruence. Qed.

Lemma mapO_no_ConfigurationError {A B} (f : A -> Outcome B) (l : list A) :
  (forall x, ~ raisesConfigurationError (f x)) ->
  ~ raisesConfigurationError (mapO f l).
Proof.
  intros Hf. induction l as [| x l IH]; cbn.
  - intros [msg Habs]. discriminate Habs.
  - specialize (Hf x). destruct (f x) as [y | e]; cbn.
    + destruct (mapO f l) as [ys | e]; cbn.
      * intros [msg Habs]. discriminate Habs.
      * exact IH.
    + intros Habs. apply Hf. exact (raisesConfigurationError_Threw e Habs).
Qed.

(** C3, as stated, fails: the preferences store is constructed with
    effects and queries disabled, and under a provider that runs the
    callback whatever injector it is given, a query without store
    dependencies returns its result. *)
Lemma runQuery_without_injector_returns :
  StoreConfig.enableEffectsAndQueries prefsConfig = None
  /\ runQuery directContext prefs.1 answerQuery [] = Returned (JsNumber 42)
  /\ ~ raisesConfigurationError (runQuery directContext prefs.1 answerQuery []).
Proof.
  split; [reflexivity |]. split; [reflexivity |].
  intros [msg Habs]. vm_compute in Habs. discriminate Habs.
Qed.

(** C3, amended.  A store constructed with effects and queries disabled
    holds no injector, and [runQuery] hands that absent injector to the
    execution-context provider without a check of its own: the call raises
    a ConfigurationError only if the provider, the resolution of a declared
    store or the query raises one. *)
Theorem runQuery_raises_no_ConfigurationError_of_its_own `{Codec}
    (ctx : ExecutionContext) (className : string) (ambient : Injector)
    (cfg : StoreConfig.t) (env : Env) (storeQuery : StoreQuery)
    (args : list JsValue) :
  enabled (StoreConfig.enableEffectsAndQueries cfg) = false ->
  (forall current fn,
     raisesConfigurationError (runInInjectionContext ctx current fn) ->
     exists installed, raisesConfigurationError (fn installed)) ->
  (forall current token, ~ raisesConfigurationError (inject ctx current token)) ->
  (forall resolved, ~ raisesConfigurationError (query storeQuery resolved)) ->
  let s := (constructor className ambient cfg env).1 in
  injector s = None
  /\ ~ raisesConfigurationError (runQuery ctx s storeQuery args).
Proof.
  intros Hoff Hrun Hinject Hquery s.
  split.
  - unfold s, constructor. rewrite Hoff.
    by destruct (enabled (StoreConfig.enableLocalStorageSync cfg)).
  - unfold runQuery. intros Hraised.
    destruct (Hrun _ _ Hraised) as [installed Hbody].
    pose proof (mapO_no_ConfigurationError (inject ctx installed)
                  (stores storeQuery) (Hinject installed)) as Hresolved.
    destruct (mapO (inject ctx installed) (stores storeQuery)) as [resolved | e];
      cbn in Hbody.
    + exact (Hquery _ Hbody).
    + exact (Hresolved (raisesConfigurationError_Threw e Hbody)).
Qed.

Lemma runQuery_raises_no_ConfigurationError_of_its_own_witness :
  injector prefs.1 = None
  /\ ~ raisesConfigurationError (runQuery directContext prefs.1 answerQuery []).
Proof.
  apply (@runQuery_raises_no_ConfigurationError_of_its_own sampleCodec
           directContext "PrefsStore" noInjector prefsConfig freshEnv
           answerQuery []).
  - reflexivity.
  - intros current fn Hraised. exists current. exact Hraised.
  - intros [i |] token [msg Habs]; cbn in Habs.
    + destruct (resolve i token); discriminate Habs.
    + discriminate Habs.
  - intros resolved [msg Habs]. discriminate Habs.
Defined.

(** A publication by a store without events reaches the handler that the
    session store registered. *)
Example publish_reaches_other_store :
  Config.enableEvents (config prefsPublishing.1) = false
  /\ handled prefsPublishing.2
     = [Mediator.mkInv "session" "session.onLogin" userLoggedIn (JsString "ada")].
Proof. vm_compute. by split. Qed.

(** With a store to resolve and no injector installed, the failure is the
    framework's missing-context error. *)
Example runQuery_without_injector_missing_context :
  runQuery directContext prefs.1 (mkQuery ["CounterStore"] (query answerQuery)) []
  = Threw (RuntimeError (-203)).
Proof. reflexivity. Qed.

(** ** Further properties of the store *)

Lemma logWithGeneralStore_env (s : Store) (store context action : string)
    (params : list LogArg) (env : Env) :
  sameButConsole env (logWithGeneralStore s store context action params env)
  /\ (Config.enableLogging (config s) = false ->
      logWithGeneralStore s store context action params env = env).
Proof.
  unfold logWithGeneralStore, sameButConsole.
  destruct (Config.enableLogging (config s)); cbn; by repeat split.
Qed.

Lemma logs_env (s : Store) (context action : string) (params : list LogArg)
    (sources : list string) (env : Env) :
  let env' :=
    fold_left
      (fun env source => logWithGeneralStore s source context action params env)
      sources env in
  sameButConsole env env'
  /\ (Config.enableLogging (config s) = false -> env' = env).
Proof.
  cbn zeta. revert env. induction sources as [| src sources IH]; intros env; cbn.
  - by repeat split.
  - destruct (IH (logWithGeneralStore s src context action params env))
      as [(H1 & H2 & H3 & H4 & H5 & H6) Hoff].
    destruct (logWithGeneralStore_env s src context action params env)
      as [(G1 & G2 & G3 & G4 & G5 & G6) Goff].
    split.
    + unfold sameButConsole. rewrite H1, H2, H3, H4, H5, H6. by repeat split.
    + intros Hlog. by rewrite (Hoff Hlog), (Goff Hlog).
Qed.

Ltac unfold_store :=
  unfold set, update, mutate, undo, redo, registerHandler, clearPersistence,
    signalUpdate, signalSet, notify, addToHistory, log, logWithGeneralStore,
    StoreBase.mediator, clearLocalStorage, state,
    StoreHistory.undo, StoreHistory.redo in *.

Ltac by_cases := repeat case_match; simplify_eq /=; try done; try congruence.

Lemma logs_console (s : Store) (context action : string) (params : list LogArg)
    (sources : list string) (env : Env) :
  console
    (fold_left
       (fun env source => logWithGeneralStore s source context action params env)
       sources env)
  = console env
      ++ (if Config.enableLogging (config s)
          then map (fun source =>
                      mkLog ("[" +:+ source +:+ "->" +:+ context +:+ "] " +:+ action)
                        params) sources
          else []).
Proof.
  revert env. induction sources as [| src sources IH]; intros env; cbn.
  - destruct (Config.enableLogging (config s)); by rewrite app_nil_r.
  - rewrite IH. unfold logWithGeneralStore.
    destruct (Config.enableLogging (config s)); cbn; [| done].
    by rewrite <- app_assoc.
Qed.

Lemma publish_env (s : Store) (event : StoreEvent) (payload : JsValue) (env : Env) :
  let env' := (publish s event payload env).2 in
  localStorage env' = localStorage env
  /\ scheduled env' = scheduled env
  /\ console env'
     = console env
         ++ publishNotices s event payload
              (map Mediator.source
                 (Mediator.registrationsOf (StoreBase.mediator env).1 event)).
Proof.
  cbn zeta. unfold publish, publishNotices.
  set (env0 := if Config.enableLogging (config s) then _ else env).
  assert (localStorage env0 = localStorage env /\ scheduled env0 = scheduled env
          /\ _mediator env0 = _mediator env
          /\ console env0
             = console env
                 ++ (if Config.enableLogging (config s)
                     then [mkLog ("[" +:+ Config.name (config s) +:+ "->" +:+ "Event"
                                  +:+ "] " +:+ ("Publish event " +:+ eventName event)) []]
                     else []))
    as (Hl & Hq & Hm & Hc).
  { unfold env0, log, logWithGeneralStore.
    destruct (Config.enableLogging (config s)); cbn; by rewrite ?app_nil_r. }
  clearbody env0. unfold StoreBase.mediator. rewrite Hm.
  destruct (_mediator env) as [m|]; unfold Mediator.publish;
    cbn -[logWithGeneralStore].
  - match goal with |- context [fold_left ?f ?l ?e] =>
      destruct (logs_env s "Handler" "Handled Event"
                  [ArgEvent (eventName event) payload] l e)
        as [(-> & _ & _ & _ & _ & ->) _];
      rewrite (logs_console s "Handler" "Handled Event"
                 [ArgEvent (eventName event) payload] l e)
    end.
    cbn. rewrite Hc.
    destruct (Config.enableLogging (config s)); cbn;
      rewrite <- ?app_assoc, ?app_nil_r; by repeat split.
  - rewrite Hc.
    destruct (Config.enableLogging (config s)); cbn; rewrite ?app_nil_r;
      by repeat split.
Qed.

Lemma perform_store (call : Call) (s : Store) (env : Env) :
  config (perform call s env).1 = config s
  /\ injector (perform call s env).1 = injector s
  /\ storageEffect (perform call s env).1 = storageEffect s
  /\ isSome (history (perform call s env).1) = isSome (history s).
Proof.
  destruct call; cbn [perform];
    try (rewrite (proj2 (proj2 (publish_through_mediator s event payload env)));
         done);
    destruct s as [st cfg hist inj eff]; unfold_store; cbn; by_cases.
Qed.

Lemma perform_quiet (call : Call) (s : Store) (env : Env) :
  Config.enableLogging (config s) = false ->
  console (perform call s env).2 = console env.
Proof.
  intros Hoff. destruct call; cbn [perform];
    try (destruct (publish_env s event payload env) as (_ & _ & ->);
         unfold publishNotices; rewrite Hoff; by rewrite app_nil_r);
    destruct s as [st cfg hist inj eff]; unfold_store; cbn in *; rewrite ?Hoff;
    by_cases.
Qed.

(** No method but [clearPersistence] writes the local storage; a method
    that changes the state leaves the storage effect in the queue. *)
Lemma perform_queue (call : Call) (s : Store) (env : Env) :
  isClearPersistence call = false ->
  localStorage (perform call s env).2 = localStorage env
  /\ scheduled env ⊆ scheduled (perform call s env).2
  /\ (storageEffect s = true ->
      _state (perform call s env).1 = _state s
      \/ Config.name (config s) ∈ scheduled (perform call s env).2).
Proof.
  intros Hcall. destruct call; cbn [perform]; try discriminate Hcall;
    try (destruct (publish_env s event payload env) as (-> & -> & _);
         rewrite (proj2 (proj2 (publish_through_mediator s event payload env)));
         split; [done |]; split; [done |]; by left);
    destruct s as [st cfg hist inj eff]; unfold_store; cbn;
    by_cases; cbn;
    (split; [done |]); (split; [set_solver |]);
    intros ?; simplify_eq; first [by left | right; set_solver].
Qed.

Lemma performAll_store (calls : list Call) (s : Store) (env : Env) :
  config (performAll calls s env).1 = config s
  /\ injector (performAll calls s env).1 = injector s
  /\ storageEffect (performAll calls s env).1 = storageEffect s
  /\ isSome (history (performAll calls s env).1) = isSome (history s).
Proof.
  revert s env. induction calls as [| call calls IH]; intros s env; cbn.
  - done.
  - destruct (perform_store call s env) as (H1 & H2 & H3 & H4).
    destruct (perform call s env) as [s' env']. cbn in *.
    destruct (IH s' env') as (G1 & G2 & G3 & G4).
    rewrite G1, G2, G3, G4. done.
Qed.

Lemma performAll_storage (calls : list Call) (s : Store) (env : Env) :
  forallb (fun call => negb (isClearPersistence call)) calls = true ->
  localStorage (performAll calls s env).2 = localStorage env.
Proof.
  revert s env. induction calls as [| call calls IH]; intros s env Hcalls; cbn in *.
  - done.
  - apply andb_prop in Hcalls as [Hcall Hcalls].
    apply negb_true_iff in Hcall.
    pose proof (proj1 (perform_queue call s env Hcall)) as Hq.
    destruct (perform call s env) as [s' env']. cbn in *.
    rewrite <- Hq. by apply IH.
Qed.

Lemma constructor_store `{Codec} (className : string) (ambient : Injector)
    (cfg : StoreConfig.t) (env : Env) :
  let s := (constructor className ambient cfg env).1 in
  config s
  = Config.mk (orElse (StoreConfig.name cfg) className)
      (StoreConfig.initialState cfg)
      (orElse (StoreConfig.enableEvents cfg) false)
      (orElse (StoreConfig.enableEffectsAndQueries cfg) false)
      (orElse (StoreConfig.enableLogging cfg) false)
      (orElse (StoreConfig.enableStateHistory cfg) false)
      (orElse (StoreConfig.enableLocalStorageSync cfg) false)
  /\ history s
     = (if enabled (StoreConfig.enableStateHistory cfg)
        then Some StoreHistory.empty else None)
  /\ injector s
     = (if enabled (StoreConfig.enableEffectsAndQueries cfg)
        then Some ambient else None)
  /\ storageEffect s = enabled (StoreConfig.enableLocalStorageSync cfg).
Proof.
  cbn zeta. unfold constructor.
  by destruct (enabled (StoreConfig.enableLocalStorageSync cfg)).
Qed.



Lemma constructor_console_off `{Codec} (className : string) (ambient : Injector)
    (cfg : StoreConfig.t) (env : Env) :
  orElse (StoreConfig.enableLogging cfg) false = false ->
  console (constructor className ambient cfg env).2 = console env.
Proof.
  intros Hoff.
  unfold constructor, log, logWithGeneralStore, StoreBase.constructor, notify.
  cbn. rewrite Hoff.
  destruct (enabled (StoreConfig.enableLocalStorageSync cfg)); cbn; by_cases.
Qed.

(** X3.  A store constructed with logging disabled never writes to the
    console: neither the constructor nor any sequence of calls adds a
    line. *)
Theorem logging_disabled_is_silent `{Codec} (className : string)
    (ambient : Injector) (cfg : StoreConfig.t) (env : Env) (calls : list Call) :
  orElse (StoreConfig.enableLogging cfg) false = false ->
  let created := constructor className ambient cfg env in
  console (performAll calls created.1 created.2).2 = console env.
Proof.
  intros Hoff created.
  rewrite <- (constructor_console_off className ambient cfg env Hoff).
  fold created.
  assert (Config.enableLogging (config created.1) = false) as Hcfg.
  { unfold created.
    by rewrite (proj1 (constructor_store className ambient cfg env)). }
  clearbody created. destruct created as [s env0]. cbn in *.
  revert s env0 Hcfg. induction calls as [| call calls IH]; intros s env0 Hcfg; cbn.
  - done.
  - pose proof (perform_quiet call s env0 Hcfg) as Hq.
    pose proof (proj1 (perform_store call s env0)) as Hc.
    destruct (perform call s env0) as [s' env']. cbn in *.
    rewrite <- Hq. apply IH. by rewrite Hc.
Qed.

Lemma logging_disabled_is_silent_witness :
  console
    (performAll
       [CallSet (JsString "dark") None; CallUndo;
        CallPublish userLoggedIn (JsString "ada"); CallClearPersistence]
       prefs.1 prefs.2).2
  = [].
Proof.
  apply (@logging_disabled_is_silent sampleCodec "PrefsStore" noInjector
           prefsConfig freshEnv).
  reflexivity.
Defined.

Lemma constructor_storage_off `{Codec} (className : string) (ambient : Injector)
    (cfg : StoreConfig.t) (env : Env) :
  enabled (StoreConfig.enableLocalStorageSync cfg) = false ->
  localStorage (constructor className ambient cfg env).2 = localStorage env
  /\ _state (constructor className ambient cfg env).1 = StoreConfig.initialState cfg.
Proof.
  intros Hoff. unfold constructor. rewrite Hoff. cbn.
  by rewrite localStorage_log, localStorage_StoreBase.
Qed.

(** X4.  A store constructed without [enableLocalStorageSync] starts from
    its configured initial state whatever the local storage holds, and
    neither its construction nor any sequence of calls other than
    [clearPersistence] changes the local storage. *)
Theorem without_sync_storage_is_untouched `{Codec} (className : string)
    (ambient : Injector) (cfg : StoreConfig.t) (env : Env) (calls : list Call) :
  enabled (StoreConfig.enableLocalStorageSync cfg) = false ->
  forallb (fun call => negb (isClearPersistence call)) calls = true ->
  let created := constructor className ambient cfg env in
  state created.1 = StoreConfig.initialState cfg
  /\ localStorage (performAll calls created.1 created.2).2 = localStorage env.
Proof.
  intros Hoff Hcalls created.
  destruct (constructor_storage_off className ambient cfg env Hoff) as [Hls Hst].
  split; [exact Hst |].
  rewrite <- Hls. by apply performAll_storage.
Qed.

Lemma without_sync_storage_is_untouched_witness :
  localStorage
    (performAll
       [CallUpdate increment (Some "inc"); CallUndo; CallRedo;
        CallMutate (fun fields => fields) None]
       counter.1 counter.2).2
  = localStorage freshEnv.
Proof.
  apply (@without_sync_storage_is_untouched sampleCodec "CounterStore" noInjector
           counterConfig freshEnv); reflexivity.
Defined.

Lemma detectChanges_settles `{Codec} (s : Store) (env : Env) :
  storageEffect s = true ->
  (Config.name (config s) ∉ scheduled env -> mirrored s env) ->
  mirrored s (detectChanges s env)
  /\ Config.name (config s) ∉ scheduled (detectChanges s env).
Proof.
  intros Heff Hsettled. unfold detectChanges, mirrored in *. rewrite Heff. cbn.
  destruct (bool_decide (Config.name (config s) ∈ scheduled env)) eqn:Hin.
  - cbn. rewrite lookup_insert_eq. split; [done |].
    apply not_elem_of_difference. right. by apply elem_of_singleton.
  - apply bool_decide_eq_false in Hin. split; [by apply Hsettled | done].
Qed.

Lemma perform_settled `{Codec} (call : Call) (s : Store) (env : Env) :
  storageEffect s = true ->
  isClearPersistence call = false ->
  (Config.name (config s) ∉ scheduled env -> mirrored s env) ->
  Config.name (config (perform call s env).1) ∉ scheduled (perform call s env).2 ->
  mirrored (perform call s env).1 (perform call s env).2.
Proof.
  intros Heff Hcall Hsettled Hout.
  destruct (perform_queue call s env Hcall) as (Hls & Hsub & Hstate).
  destruct (perform_store call s env) as (Hcfg & _).
  rewrite Hcfg in Hout. unfold mirrored in *. rewrite Hcfg, Hls.
  destruct (Hstate Heff) as [-> | Hin]; [| done].
  apply Hsettled. intros Hin. by apply Hout, Hsub.
Qed.

Lemma run_app `{Codec} (steps steps' : list Step) (s : Store) (env : Env) :
  run (steps ++ steps') s env
  = run steps' (run steps s env).1 (run steps s env).2.
Proof.
  revert s env. induction steps as [| [call |] steps IH]; intros s env; cbn.
  - reflexivity.
  - destruct (perform call s env) as [s' env']. apply IH.
  - apply IH.
Qed.

Lemma run_settled `{Codec} (steps : list Step) (s : Store) (env : Env) :
  storageEffect s = true ->
  forallb keepsPersistence steps = true ->
  (Config.name (config s) ∉ scheduled env -> mirrored s env) ->
  storageEffect (run steps s env).1 = true
  /\ (Config.name (config (run steps s env).1) ∉ scheduled (run steps s env).2 ->
      mirrored (run steps s env).1 (run steps s env).2).
Proof.
  revert s env.
  induction steps as [| [call |] steps IH]; intros s env Heff Hsteps Hsettled;
    cbn in *.
  - done.
  - apply andb_prop in Hsteps as [Hcall Hsteps]. apply negb_true_iff in Hcall.
    pose proof (perform_settled call s env Heff Hcall Hsettled) as Hnext.
    pose proof (proj1 (proj2 (proj2 (perform_store call s env)))) as Heff'.
    destruct (perform call s env) as [s' env']. cbn in *.
    apply IH; [by rewrite Heff' | exact Hsteps | exact Hnext].
  - destruct (detectChanges_settles s env Heff Hsettled) as [Hm _].
    apply IH; [exact Heff | exact Hsteps | by intros _].
Qed.

(** X5.  On a store constructed with [enableLocalStorageSync], the
    constructor and the calls write nothing to the local storage
    themselves: the storage effect is queued, and saves the state when the
    host framework next detects changes.  After any sequence of calls and
    change detections without [clearPersistence], a change detection leaves
    under the store's name the encoding of the state current at that
    time. *)
Theorem storage_mirrors_state `{Codec} (className : string) (ambient : Injector)
    (cfg : StoreConfig.t) (env : Env) (calls : list Call) (steps : list Step) :
  enabled (StoreConfig.enableLocalStorageSync cfg) = true ->
  forallb (fun call => negb (isClearPersistence call)) calls = true ->
  forallb keepsPersistence steps = true ->
  let created := constructor className ambient cfg env in
  let after := run (steps ++ [DetectChanges]) created.1 created.2 in
  localStorage (performAll calls created.1 created.2).2 = localStorage env
  /\ localStorage after.2 !! orElse (StoreConfig.name cfg) className
     = Some (encode (state after.1)).
Proof.
  intros Hon Hcalls Hsteps created after.
  destruct (constructor_synchronised className ambient cfg env Hon)
    as (_ & Heff & Hname & Hls & Hqueued).
  fold created in Heff, Hname, Hls, Hqueued.
  split.
  - rewrite <- Hls. by apply performAll_storage.
  - subst after. rewrite run_app. cbn.
    destruct (run_settled steps created.1 created.2 Heff Hsteps) as [Heff' Hsettled].
    { rewrite Hname. intros Hout. by destruct Hout. }
    destruct (detectChanges_settles _ _ Heff' Hsettled) as [Hm _].
    unfold mirrored in Hm. rewrite <- Hname.
    assert (config (run steps created.1 created.2).1 = config created.1) as Hcfg.
    { clear. generalize created.1 created.2.
      induction steps as [| [call |] steps IH]; intros s env0; cbn.
      - done.
      - pose proof (proj1 (perform_store call s env0)) as Hc.
        destruct (perform call s env0) as [s' env']. cbn in *.
        by rewrite IH, Hc.
      - apply IH. }
    by rewrite <- Hcfg.
Qed.

Lemma storage_mirrors_state_witness :
  let after :=
    @run sampleCodec
      ([Invoke (CallSet (JsString "dark") (Some "theme")); DetectChanges;
        Invoke CallUndo; Invoke (CallSet (JsNumber 0) None);
        Invoke (CallPublish userLoggedIn JsNull)] ++ [DetectChanges])
      prefs.1 prefs.2 in
  localStorage
    (performAll [CallSet (JsString "dark") (Some "theme"); CallUndo] prefs.1 prefs.2).2
  = localStorage freshEnv
  /\ localStorage after.2 !! "prefs" = Some (@encode sampleCodec (state after.1)).
Proof.
  apply (@storage_mirrors_state sampleCodec "PrefsStore" noInjector
           prefsConfig freshEnv); reflexivity.
Defined.

(** X6.  Whatever the store, [undo] takes the newest entry, if there is
    one, off the history that [getHistory] reads, and leaves the older
    entries in place; this is so even when the snapshot is falsy and the
    state is kept. *)
Theorem undo_drops_newest_entry (s : Store) (env : Env) :
  getHistory (undo s env).1 = removelast (getHistory s).
Proof.
  unfold getHistory. rewrite undo_store.
  destruct s as [st cfg [[u r]|] inj eff]; cbn; [| done].
  unfold StoreHistory.undo, StoreHistory.entries. cbn.
  destruct u as [| e rest]; cbn; [done |].
  destruct (truthy (StoreHistory.state e)); cbn; by rewrite removelast_last.
Qed.

(** X7.  Right after a [set], an [update] or a [mutate], [redo] changes
    nothing in the store: a new command discards what had been undone. *)
Theorem redo_after_command_changes_nothing (s : Store) (v : JsValue)
    (f : JsValue -> JsValue) (m : Mutator) (c : option string) (env : Env) :
  let afterSet := set s v c env in
  let afterUpdate := update s f c env in
  let afterMutate := mutate s m c env in
  (redo afterSet.1 afterSet.2).1 = afterSet.1
  /\ (redo afterUpdate.1 afterUpdate.2).1 = afterUpdate.1
  /\ (redo afterMutate.1 afterMutate.2).1 = afterMutate.1.
Proof.
  cbn zeta. rewrite !redo_store, set_store, update_store.
  destruct s as [st cfg [h|] inj eff];
    unfold mutate, addToHistory, StoreHistory.redo; cbn; done.
Qed.

(** X8.  With history enabled, a successful undo followed by a redo gives
    back the very store: the state, both stacks and the labels of their
    entries, provided the state and the snapshot on top of the undo-stack
    are truthy. *)
Theorem undo_then_redo_is_identity (s : Store) (h : StoreHistory.t)
    (e : StoreHistory.HistoryItem) (rest : list StoreHistory.HistoryItem)
    (env : Env) :
  history s = Some h ->
  StoreHistory.undoStack h = e :: rest ->
  truthy (StoreHistory.state e) = true ->
  truthy (state s) = true ->
  (redo (undo s env).1 (undo s env).2).1 = s.
Proof.
  intros Hh Hstack Hsnap Hcur.
  destruct s as [st cfg hist inj eff], h as [u r], e as [est label].
  cbn in *. subst.
  rewrite redo_store, undo_store. unfold StoreHistory.undo, StoreHistory.redo.
  cbn. rewrite Hsnap. cbn. rewrite Hcur. by cbn.
Qed.

Lemma undo_then_redo_is_identity_witness :
  (redo (undo counterAtThree.1 counterAtThree.2).1
     (undo counterAtThree.1 counterAtThree.2).2).1
  = counterAtThree.1.
Proof.
  apply (undo_then_redo_is_identity counterAtThree.1
           (StoreHistory.mk
              [StoreHistory.mkItem (JsNumber 2) "inc";
               StoreHistory.mkItem (JsNumber 1) "inc";
               StoreHistory.mkItem (JsNumber 0) "inc"] [])
           (StoreHistory.mkItem (JsNumber 2) "inc")
           [StoreHistory.mkItem (JsNumber 1) "inc";
            StoreHistory.mkItem (JsNumber 0) "inc"]
           counterAtThree.2);
    reflexivity.
Defined.

(** X9.  After [mutate] on a state that is an object, [undo] does not
    bring back the former content: the snapshot taken before the mutation is
    the state object itself, so the state after the undo is the mutated
    object. *)
Theorem undo_after_mutate_keeps_mutation (s : Store) (h : StoreHistory.t)
    (ref : nat) (fields : list (string * JsValue)) (m : Mutator)
    (c : option string) (env : Env) :
  history s = Some h ->
  state s = JsObject ref fields ->
  let mutated := mutate s m c env in
  state mutated.1 = JsObject ref (m fields)
  /\ state (undo mutated.1 mutated.2).1 = JsObject ref (m fields).
Proof.
  intros Hh Hst. destruct s as [st cfg hist inj eff]. cbn in *. subst.
  assert (forall label,
            StoreHistory.alias (JsObject ref fields) (JsObject ref (m fields))
              (StoreHistory.mkItem (JsObject ref fields) label)
            = StoreHistory.mkItem (JsObject ref (m fields)) label) as Halias.
  { intros label. unfold StoreHistory.alias. cbn. by rewrite Nat.eqb_refl. }
  split; [done |]. rewrite undo_store.
  unfold mutate, addToHistory, StoreHistory.undo. cbn.
  rewrite !Halias. by cbn.
Qed.

Lemma undo_after_mutate_keeps_mutation_witness :
  let s :=
    mkStore (JsObject 1 [("theme", JsString "light")]) (config counter.1)
      (Some StoreHistory.empty) None false in
  let mutated :=
    mutate s (fun _ => [("theme", JsString "dark")]) None freshEnv in
  state mutated.1 = JsObject 1 [("theme", JsString "dark")]
  /\ state (undo mutated.1 mutated.2).1
     = JsObject 1 [("theme", JsString "dark")].
Proof.
  apply (undo_after_mutate_keeps_mutation
           (mkStore (JsObject 1 [("theme", JsString "light")]) (config counter.1)
              (Some StoreHistory.empty) None false)
           StoreHistory.empty 1 [("theme", JsString "light")]
           (fun _ => [("theme", JsString "dark")]) None freshEnv);
    reflexivity.
Defined.

Lemma undo_restores_truthy_states_witness :
  let changed :=
    setEach [JsNumber 2; JsNumber 3; JsNumber 0] counterSetOnce.1
      counterSetOnce.2 in
  state (undoTimes 3 changed.1 changed.2).1 = JsNumber 1.
Proof.
  apply (undo_restores_truthy_states
           [JsNumber 2; JsNumber 3; JsNumber 0] counterSetOnce.1
           (StoreHistory.mk [StoreHistory.mkItem (JsNumber 0) "Unspecified"] [])
           counterSetOnce.2).
  - reflexivity.
  - repeat constructor.
Defined.

(** X10.  A store constructed without [enableStateHistory] never has a
    history to show: [getHistory] returns the empty list after any sequence
    of calls. *)
Theorem without_history_nothing_is_recorded `{Codec} (className : string)
    (ambient : Injector) (cfg : StoreConfig.t) (env : Env) (calls : list Call) :
  enabled (StoreConfig.enableStateHistory cfg) = false ->
  let created := constructor className ambient cfg env in
  getHistory (performAll calls created.1 created.2).1 = [].
Proof.
  intros Hoff created.
  destruct (constructor_store className ambient cfg env) as (_ & Hh & _).
  fold created in Hh. rewrite Hoff in Hh.
  destruct (performAll_store calls created.1 created.2) as (_ & _ & _ & Hsome).
  rewrite Hh in Hsome. unfold getHistory.
  by destruct (history (performAll calls created.1 created.2).1).
Qed.

Lemma without_history_nothing_is_recorded_witness :
  getHistory
    (performAll
       [CallSet (JsString "dark") None; CallUpdate (fun v => v) (Some "same");
        CallUndo]
       prefs.1 prefs.2).1
  = [].
Proof.
  apply (@without_history_nothing_is_recorded sampleCodec "PrefsStore" noInjector
           prefsConfig freshEnv).
  reflexivity.
Defined.

(** X12.  What [publish] writes on the console when logging is enabled:
    the announcement under the publishing store's name, then one line for
    each handler that ran, in the order they ran, under the name of the
    store that registered the handler; nothing when logging is disabled. *)
Theorem publish_logs_under_handler_sources (s : Store) (event : StoreEvent)
    (payload : JsValue) (env : Env) :
  console (publish s event payload env).2
  = console env
      ++ publishNotices s event payload
           (map Mediator.source (registeredFor env event)).
Proof. apply publish_env. Qed.

Lemma lookupRegs_appendReg_other (ev : StoreEvent) (x : Mediator.Registration)
    (id : nat) (r : list (StoreEvent * list Mediator.Registration)) :
  id <> identity ev ->
  Mediator.lookupRegs id (Mediator.appendReg ev x r) = Mediator.lookupRegs id r.
Proof.
  intros Hne. induction r as [| [e regs] r IH]; cbn.
  - destruct (Nat.eqb_spec (identity ev) id); [congruence | done].
  - destruct (Nat.eqb_spec (identity e) (identity ev)) as [Heq | Hneq]; cbn.
    + destruct (Nat.eqb_spec (identity e) id); [congruence | done].
    + destruct (Nat.eqb_spec (identity e) id); [done | exact IH].
Qed.

Lemma registeredFor_perform (call : Call) (s : Store) (env : Env)
    (event : StoreEvent) :
  exists more,
    registeredFor (perform call s env).2 event = registeredFor env event ++ more.
Proof.
  unfold registeredFor.
  destruct call; cbn [perform];
    try (exists []; rewrite app_nil_r;
         destruct s as [st cfg hist inj eff]; unfold_store; cbn; by_cases; fail).
  - (* registerHandler *)
    destruct (Nat.eq_dec (identity event) (identity event0)) as [Heq | Hne].
    + exists [Mediator.mkReg (Config.name (config s)) handler].
      unfold registerHandler, StoreBase.mediator, Mediator.registrationsOf, log,
        logWithGeneralStore, Mediator.register.
      rewrite Heq.
      destruct (_mediator env), withReplay, (Config.enableLogging (config s));
        cbn -[Mediator.lookupRegs Mediator.appendReg]; apply lookupRegs_appendReg.
    + exists []. rewrite app_nil_r.
      unfold registerHandler, StoreBase.mediator, Mediator.registrationsOf, log,
        logWithGeneralStore, Mediator.register.
      destruct (_mediator env), withReplay, (Config.enableLogging (config s));
        cbn -[Mediator.lookupRegs Mediator.appendReg];
        by apply lookupRegs_appendReg_other.
  - (* publish *)
    exists []. rewrite app_nil_r.
    destruct (publish_through_mediator s event0 payload env) as (_ & Hm & _).
    unfold StoreBase.mediator at 1. rewrite Hm. reflexivity.
Qed.

(** X13.  A handler once registered stays registered: constructing a
    store, with or without events, leaves the registrations of every event
    as they are, and after any sequence of calls on any store the
    registrations of an event are the former ones, in the same order,
    possibly followed by new ones. *)
Theorem registrations_only_grow `{Codec} (className : string) (ambient : Injector)
    (cfg : StoreConfig.t) (calls : list Call) (s : Store) (env : Env)
    (event : StoreEvent) :
  registeredFor (constructor className ambient cfg env).2 event
  = registeredFor env event
  /\ exists more,
       registeredFor (performAll calls s env).2 event
       = registeredFor env event ++ more.
Proof.
  split.
  - unfold registeredFor, constructor, StoreBase.constructor, StoreBase.mediator,
      log, logWithGeneralStore, notify.
    cbn. by_cases.
  - revert s env. induction calls as [| call calls IH]; intros s env; cbn.
    + exists []. by rewrite app_nil_r.
    + destruct (registeredFor_perform call s env event) as [more Hmore].
      destruct (perform call s env) as [s' env']. cbn in *.
      destruct (IH s' env') as [more' Hmore'].
      exists (more ++ more'). by rewrite Hmore', Hmore, app_assoc.
Qed.

(** X14.  [set], [update], [mutate], [undo], [redo] and
    [clearPersistence] neither change the mediator, its registrations and
    its ledger, nor run a handler. *)
Theorem commands_leave_the_mediator_alone (call : Call) (s : Store) (env : Env) :
  touchesEvents call = false ->
  _mediator (perform call s env).2 = _mediator env
  /\ handled (perform call s env).2 = handled env.
Proof.
  intros Hcall; destruct call; cbn [perform]; try discriminate Hcall;
    destruct s as [st cfg hist inj eff]; unfold_store; cbn; by_cases.
Qed.

Lemma commands_leave_the_mediator_alone_witness :
  _mediator (perform CallUndo counterAtThree.1 prefsPublishing.2).2
  = _mediator prefsPublishing.2
  /\ handled (perform CallUndo counterAtThree.1 prefsPublishing.2).2
     = handled prefsPublishing.2.
Proof.
  apply (commands_leave_the_mediator_alone CallUndo counterAtThree.1
           prefsPublishing.2).
  reflexivity.
Defined.

Lemma replay_absent (l : list (nat * list JsValue)) (src : string)
    (r : list (StoreEvent * list Mediator.Registration)) :
  forallb
    (fun '(_, regs) =>
       forallb (fun r => negb (String.eqb (Mediator.source r) src)) regs) r = true ->
  Mediator.replay (Mediator.mk r l) src = [].
Proof.
  unfold Mediator.replay. cbn.
  induction r as [| [e regs] r IH]; cbn; [done |].
  intros [Hregs Hr]%andb_prop. rewrite (IH Hr), app_nil_r. clear IH Hr.
  induction regs as [| x regs IH]; cbn in *; [done |].
  apply andb_prop in Hregs as [Hx Hregs]. apply negb_true_iff in Hx.
  rewrite Hx. cbn. by apply IH.
Qed.

Lemma replay_register_fresh (m : Mediator.t) (ev : StoreEvent) (src : string)
    (h : HandlerId) :
  forallb
    (fun '(_, regs) =>
       forallb (fun r => negb (String.eqb (Mediator.source r) src)) regs)
    (Mediator.registry m) = true ->
  map summary (Mediator.replay (Mediator.register m ev src h) src)
  = map (fun p => (src, h, identity ev, p))
      (Mediator.lookupLedger (identity ev) (Mediator.ledger m)).
Proof.
  destruct m as [r l]. unfold Mediator.register, Mediator.replay. cbn.
  induction r as [| [e regs] r IH]; cbn.
  - intros _. rewrite String.eqb_refl, !app_nil_r, map_map. done.
  - intros [Hregs Hr]%andb_prop.
    assert (forall ev',
              flat_map
                (fun x =>
                   if String.eqb (Mediator.source x) src
                   then map (fun p => Mediator.invoke ev' p x)
                          (Mediator.lookupLedger (identity ev') l)
                   else []) regs = []) as Hnone.
    { intros ev'. clear IH Hr. induction regs as [| x regs IH]; cbn in *; [done |].
      apply andb_prop in Hregs as [Hx Hregs]. apply negb_true_iff in Hx.
      rewrite Hx. cbn. by apply IH. }
    destruct (Nat.eqb_spec (identity e) (identity ev)) as [Heq | Hne]; cbn.
    + rewrite flat_map_app, Hnone. cbn.
      rewrite String.eqb_refl, app_nil_r.
      pose proof (replay_absent l src r Hr) as Hrest.
      unfold Mediator.replay in Hrest. cbn in Hrest. rewrite Hrest, app_nil_r.
      rewrite map_map, Heq. apply map_ext. intros p. unfold summary. cbn.
      by rewrite Heq.
    + rewrite Hnone. cbn. by apply IH.
Qed.

(** X15.  A store that has no handler registered yet and registers one
    with replay catches up with the past: the handler runs once for each
    payload published so far for the event, in the order of publication, and
    no other handler runs; without replay no handler runs. *)
Theorem late_subscriber_catches_up (s : Store) (event : StoreEvent)
    (handler : HandlerId) (env : Env) :
  sourceAbsent (Config.name (config s)) env = true ->
  map summary (handled (registerHandler s event handler true env).2)
  = map summary (handled env)
      ++ map (fun p => (Config.name (config s), handler, identity event, p))
           (publishedFor env event)
  /\ handled (registerHandler s event handler false env).2 = handled env.
Proof.
  intros Hfresh. unfold sourceAbsent, publishedFor in *. split.
  - pose proof (replay_register_fresh (StoreBase.mediator env).1 event
                  (Config.name (config s)) handler Hfresh) as Hreplay.
    unfold registerHandler, StoreBase.mediator, log, logWithGeneralStore in *.
    destruct (_mediator env) as [m|], (Config.enableLogging (config s));
      cbn -[Mediator.replay Mediator.register] in *;
      by rewrite map_app, Hreplay.
  - unfold registerHandler, StoreBase.mediator, log, logWithGeneralStore.
    by destruct (_mediator env), (Config.enableLogging (config s)).
Qed.

Lemma late_subscriber_catches_up_witness :
  map summary
    (handled (registerHandler counter.1 userLoggedIn "counter.onLogin" true
                prefsPublishing.2).2)
  = [("session", "session.onLogin", 1%nat, JsString "ada");
     ("counter", "counter.onLogin", 1%nat, JsString "ada")].
Proof.
  apply (late_subscriber_catches_up counter.1 userLoggedIn "counter.onLogin"
           prefsPublishing.2).
  reflexivity.
Defined.

(** X16.  With persistence and logging enabled, a persisted value that is
    falsy without being null or undefined (0, the empty string, false)
    becomes the initial state, and yet the line the constructor logs says
    that the local storage is empty. *)
Theorem persisted_falsy_state_logged_as_empty `{Codec} (className : string)
    (ambient : Injector) (cfg : StoreConfig.t) (env : Env) (text : string)
    (v : JsValue) :
  enabled (StoreConfig.enableLocalStorageSync cfg) = true ->
  orElse (StoreConfig.enableLogging cfg) false = true ->
  localStorage env !! orElse (StoreConfig.name cfg) className = Some text ->
  decode text = Some v ->
  nullish v = false ->
  truthy v = false ->
  let created := constructor className ambient cfg env in
  state created.1 = v
  /\ last (console created.2)
     = Some (mkLog
               ("[" +:+ orElse (StoreConfig.name cfg) className +:+ "->" +:+ "Init"
                +:+ "] "
                +:+ "local storage is empty; store initialized using configured initial state")
               [ArgRawConfig cfg; ArgState v]).
Proof.
  intros Hsync Hlog Hentry Hdecode Hnull Hfalsy. cbn zeta.
  unfold constructor. rewrite Hsync. cbn.
  unfold loadFromStorage. rewrite localStorage_StoreBase, Hentry, Hdecode.
  unfold coalesce. rewrite Hnull, Hfalsy.
  split; [done |].
  unfold log, logWithGeneralStore. cbn. rewrite Hlog. cbn.
  by rewrite last_snoc.
Qed.

Lemma persisted_falsy_state_logged_as_empty_witness :
  let cfg :=
    StoreConfig.mk (Some "counter") (JsNumber 7) None None (Some true) None (Some true) in
  let env := mkEnv [] {["counter" := "0"]} None [] [] [] ∅ in
  let created := @constructor sampleCodec "CounterStore" noInjector cfg env in
  state created.1 = JsNumber 0
  /\ last (console created.2)
     = Some (mkLog
               "[counter->Init] local storage is empty; store initialized using configured initial state"
               [ArgRawConfig cfg; ArgState (JsNumber 0)]).
Proof.
  apply (@persisted_falsy_state_logged_as_empty sampleCodec "CounterStore"
           noInjector
           (StoreConfig.mk (Some "counter") (JsNumber 7) None None (Some true) None
              (Some true))
           (mkEnv [] {["counter" := "0"]} None [] [] [] ∅) "0" (JsNumber 0));
    reflexivity.
Defined.



Lemma mapO_resolved {A B} (f : A -> Outcome B) (l : list A) (resolved : list B) :
  Forall2 (fun x y => f x = Returned y) l resolved ->
  mapO f l = Returned resolved.
Proof.
  induction 1 as [| x y l resolved Hx _ IH]; cbn; [done |].
  by rewrite Hx, IH.
Qed.

Lemma mapO_fails {A B} (f : A -> Outcome B) (before after : list A) (x : A)
    (resolved : list B) (e : JsError) :
  Forall2 (fun x y => f x = Returned y) before resolved ->
  f x = Threw e ->
  mapO f (before ++ x :: after) = Threw e.
Proof.
  intros Hbefore Hx.
  induction Hbefore as [| x' y l resolved' Hx' _ IH]; cbn.
  - by rewrite Hx.
  - by rewrite Hx', IH.
Qed.

(** X18.  Under a provider that runs the callback in the context of the
    injector it is given, [runQuery] applies the query's function to the
    stores it declares, resolved in the declared order, followed by the
    caller's arguments. *)
Theorem runQuery_applies_query_to_resolved_stores (ctx : ExecutionContext)
    (s : Store) (storeQuery : StoreQuery) (args resolved : list JsValue) :
  (forall current fn, runInInjectionContext ctx current fn = fn current) ->
  Forall2 (fun token v => inject ctx (injector s) token = Returned v)
    (stores storeQuery) resolved ->
  runQuery ctx s storeQuery args = query storeQuery (resolved ++ args).
Proof.
  intros Hrun Hresolved. unfold runQuery.
  by rewrite Hrun, (mapO_resolved _ _ _ Hresolved).
Qed.

Lemma runQuery_applies_query_to_resolved_stores_witness :
  runQuery directContext cart.1 plusCounter [JsNumber 4] = Returned (JsNumber 7).
Proof.
  apply (runQuery_applies_query_to_resolved_stores directContext cart.1
           plusCounter [JsNumber 4] [JsNumber 3]).
  - reflexivity.
  - repeat constructor.
Defined.

(** X19.  Under such a provider, when the resolution of a declared store
    throws, [runQuery] throws that error: the stores declared after it are
    not resolved and the query's function is not applied. *)
Theorem runQuery_stops_at_unresolved_store (ctx : ExecutionContext) (s : Store)
    (storeQuery : StoreQuery) (args resolved : list JsValue)
    (before after : list ProviderToken) (token : ProviderToken) (e : JsError) :
  (forall current fn, runInInjectionContext ctx current fn = fn current) ->
  stores storeQuery = before ++ token :: after ->
  Forall2 (fun token v => inject ctx (injector s) token = Returned v) before resolved ->
  inject ctx (injector s) token = Threw e ->
  runQuery ctx s storeQuery args = Threw e.
Proof.
  intros Hrun Hstores Hbefore Htoken. unfold runQuery.
  by rewrite Hrun, Hstores, (mapO_fails _ _ _ _ _ _ Hbefore Htoken).
Qed.

Lemma runQuery_stops_at_unresolved_store_witness :
  runQuery directContext cart.1 overUnknown [] = Threw (RuntimeError (-201)).
Proof.
  apply (runQuery_stops_at_unresolved_store directContext cart.1 overUnknown []
           [JsNumber 3] ["CounterStore"] [] "GhostStore" (RuntimeError (-201))).
  - reflexivity.
  - reflexivity.
  - repeat constructor.
  - reflexivity.
Defined.

(** X20.  With history enabled, after [set] has been called with each of
    [values], [getHistory] returns the earlier entries followed by the
    states held before each of these calls, oldest first. *)
Theorem getHistory_lists_former_states (values : list JsValue) (s : Store)
    (h : StoreHistory.t) (env : Env) :
  history s = Some h ->
  getHistory (setEach values s env).1
  = getHistory s
      ++ map (fun v => StoreHistory.mkItem v "Unspecified") (statesBefore s values).
Proof.
  intros Hh.
  destruct (setEach_pushes values s h env Hh) as (h' & Hh' & Hstack).
  unfold getHistory, StoreHistory.entries. rewrite Hh', Hh, Hstack.
  by rewrite rev_app_distr, rev_involutive.
Qed.

Lemma getHistory_lists_former_states_witness :
  getHistory
    (setEach [JsNumber 5; JsNumber 6] counterSetOnce.1
       counterSetOnce.2).1
  = [StoreHistory.mkItem (JsNumber 0) "Unspecified";
     StoreHistory.mkItem (JsNumber 1) "Unspecified";
     StoreHistory.mkItem (JsNumber 5) "Unspecified"].
Proof.
  apply (getHistory_lists_former_states [JsNumber 5; JsNumber 6]
           counterSetOnce.1
           (StoreHistory.mk [StoreHistory.mkItem (JsNumber 0) "Unspecified"] [])
           counterSetOnce.2).
  reflexivity.
Defined.
